(** * dolo-v1: response normalisation and the chat session

    A shallow embedding of the chat component in
    [src/components/ui/health-analytics.tsx] (the helpers
    [isStructuredReport], [toList], [extractContent] and the component
    [ExpandableAIChat] with [createConversation], [clearChat], [runAnalysis],
    [sendMessage]) and of [handleAnalyze] of the page [Home] that mounts it.

    - JavaScript strings are sequences of UTF-16 code units.
    - The values the service returns are JSON values; [undefined] is the
      absent value and is written [None] of an [option JSON].
    - An object is the list of its own enumerable properties in the order
      JavaScript enumerates them ([Object.values], [JSON.stringify]).
    - The component is a state machine: its React state, plus the requests
      that were issued and have not settled yet.  Every handler up to its
      first [await], and every continuation of an [await], is one
      transition; [Date.now()] is an input of the transition. *)

From Stdlib Require Import NArith String Ascii DecimalString DecimalN.
From stdpp Require Import base option list gmap.

Local Open Scope N_scope.

(** ** Strings *)

Module Js.

(** A UTF-16 code unit, [0 .. 0xFFFF]. *)
Definition unit16 := N.

(** A JavaScript string. *)
Definition jsstring := list unit16.

(** ASCII literals of the source, as code units. *)
Definition lit (s : string) : jsstring :=
  map N_of_ascii (list_ascii_of_string s).

(** [WhiteSpace] and [LineTerminator] of ECMAScript: what the regular
    expression class [\s] matches and what [String.prototype.trim] removes. *)
Definition is_space (c : unit16) : bool :=
  (c =? 9) || (c =? 10) || (c =? 11) || (c =? 12) || (c =? 13) ||
  (c =? 32) || (c =? 160) || (c =? 5760) ||
  ((8192 <=? c) && (c <=? 8202)) ||
  (c =? 8232) || (c =? 8233) || (c =? 8239) || (c =? 8287) ||
  (c =? 12288) || (c =? 65279).

(** The leading run of white space is dropped. *)
Fixpoint trimStart (s : jsstring) : jsstring :=
  match s with
  | c :: r => if is_space c then trimStart r else s
  | [] => []
  end.

(** The trailing run of white space is dropped. *)
Fixpoint trimEnd (s : jsstring) : jsstring :=
  match s with
  | [] => []
  | c :: r =>
      match trimEnd r with
      | [] => if is_space c then [] else [c]
      | r' => c :: r'
      end
  end.

(** [String.prototype.trim]. *)
Definition trim (s : jsstring) : jsstring := trimEnd (trimStart s).

(** Truthiness of a string: [Boolean(s)], [!s], [s || d]. *)
Definition truthy (s : jsstring) : bool :=
  match s with [] => false | _ => true end.

(** [a || b] on strings. *)
Definition or_else (a b : jsstring) : jsstring :=
  if truthy a then a else b.

(** Four lower-case hexadecimal digits of a code unit ([UnicodeEscape]). *)
Definition hex_digit (d : N) : unit16 :=
  if d <? 10 then 48 + d else 87 + d.

Definition hex4 (c : unit16) : jsstring :=
  [ hex_digit ((c / 4096) mod 16); hex_digit ((c / 256) mod 16);
    hex_digit ((c / 16) mod 16); hex_digit (c mod 16) ].

Definition is_high_surrogate (c : unit16) : bool := (55296 <=? c) && (c <=? 56319).
Definition is_low_surrogate (c : unit16) : bool := (56320 <=? c) && (c <=? 57343).

(** The escape of one code unit that is not part of a surrogate pair. *)
Definition quote_unit (c : unit16) : jsstring :=
  if c =? 8 then [92; 98]
  else if c =? 9 then [92; 116]
  else if c =? 10 then [92; 110]
  else if c =? 12 then [92; 102]
  else if c =? 13 then [92; 114]
  else if c =? 34 then [92; 34]
  else if c =? 92 then [92; 92]
  else if (c <? 32) || is_high_surrogate c || is_low_surrogate c
       then [92; 117] ++ hex4 c
  else [c].

(** The body of [QuoteJSONString]: a well-formed surrogate pair is copied,
    every other code unit goes through [quote_unit]. *)
Fixpoint quote_body (s : jsstring) : jsstring :=
  match s with
  | [] => []
  | c :: r =>
      match r with
      | c' :: r' =>
          if is_high_surrogate c && is_low_surrogate c'
          then c :: c' :: quote_body r'
          else quote_unit c ++ quote_body r
      | [] => quote_unit c
      end
  end.

(** [QuoteJSONString]. *)
Definition quote (s : jsstring) : jsstring := [34] ++ quote_body s ++ [34].

(** [Array.prototype.join] on strings. *)
Fixpoint join (sep : jsstring) (parts : list jsstring) : jsstring :=
  match parts with
  | [] => []
  | [p] => p
  | p :: rest => p ++ sep ++ join sep rest
  end.

End Js.

Export Js.

(** ** JSON values *)

(** A number is only ever printed by this code, so it is carried by the text
    [Number.prototype.toString] gives for it.  [JSON.parse] yields no NaN but
    it does yield the infinities (an exponent that overflows). *)
Inductive Number :=
  | Finite (text : jsstring)
  | Infinite (negative : bool).

#[warnings="-register-all"] Inductive JSON :=
  | JNull
  | JBool (b : bool)
  | JNumber (n : Number)
  | JString (s : jsstring)
  | JArray (items : list JSON)
  | JObject (fields : list (jsstring * JSON)).

(** [unknown]: a JSON value or [undefined]. *)
Definition unknown := option JSON.

Definition Number_toString (n : Number) : jsstring :=
  match n with
  | Finite t => t
  | Infinite false => lit "Infinity"
  | Infinite true => lit "-Infinity"
  end.

(** Own property lookup in a property list. *)
Fixpoint lookup_field (k : jsstring) (fields : list (jsstring * JSON)) : option JSON :=
  match fields with
  | [] => None
  | (k', v) :: rest => if decide (k = k') then Some v else lookup_field k rest
  end.

(** [d.k] for a value that is not null: a property read.  None of the names
    read by this program is a property of [Object.prototype],
    [Array.prototype] or of a primitive's wrapper, so the read of an array
    or a primitive is [undefined]. *)
Definition get (k : jsstring) (v : JSON) : unknown :=
  match v with
  | JObject fields => lookup_field k fields
  | _ => None
  end.

(** ["k" in d] for an object or an array. *)
Definition has (k : jsstring) (v : JSON) : bool :=
  match v with
  | JObject fields => bool_decide (is_Some (lookup_field k fields))
  | _ => false
  end.

(** [a ?? b]: the right operand is taken when the left one is [null] or
    [undefined]. *)
Definition nullish (a b : unknown) : unknown :=
  match a with
  | None | Some JNull => b
  | Some _ => a
  end.

Infix "??" := nullish (at level 60, right associativity).

(** [Object.values(v)]. *)
Definition Object_values (v : JSON) : list JSON :=
  match v with
  | JObject fields => map snd fields
  | JArray items => items
  | JString s => map (fun c => JString [c]) s
  | _ => []
  end.

(** ** [JSON.stringify(v, null, 2)] *)

Definition gap : jsstring := lit "  ".

Definition newline : jsstring := [10].

(** The text between the brackets of a non-empty array or object. *)
Definition wrap (open close indent : jsstring) (partial : list jsstring) : jsstring :=
  let inner := indent ++ gap in
  open ++ newline ++ inner ++ join (lit "," ++ newline ++ inner) partial
       ++ newline ++ indent ++ close.

(** [SerializeJSONProperty] with the current indentation. *)
Fixpoint serialize (indent : jsstring) (v : JSON) {struct v} : jsstring :=
  match v with
  | JNull => lit "null"
  | JBool true => lit "true"
  | JBool false => lit "false"
  | JNumber (Finite t) => t
  | JNumber (Infinite _) => lit "null"
  | JString s => quote s
  | JArray items =>
      match items with
      | [] => lit "[]"
      | _ =>
          wrap (lit "[") (lit "]") indent
            ((fix each (l : list JSON) : list jsstring :=
                match l with
                | [] => []
                | x :: l' => serialize (indent ++ gap) x :: each l'
                end) items)
      end
  | JObject fields =>
      match fields with
      | [] => lit "{}"
      | _ =>
          wrap (lit "{") (lit "}") indent
            ((fix each (l : list (jsstring * JSON)) : list jsstring :=
                match l with
                | [] => []
                | (k, x) :: l' =>
                    (quote k ++ lit ": " ++ serialize (indent ++ gap) x) :: each l'
                end) fields)
      end
  end.

Definition JSON_stringify (v : JSON) : jsstring := serialize [] v.

(** ** [String(v)] *)

(** [ToString].  [None] is a thrown [TypeError]: an object whose own
    property [toString] hides [Object.prototype.toString] has no primitive
    value. *)
Fixpoint ToString (v : JSON) {struct v} : option jsstring :=
  match v with
  | JNull => Some (lit "null")
  | JBool true => Some (lit "true")
  | JBool false => Some (lit "false")
  | JNumber n => Some (Number_toString n)
  | JString s => Some s
  | JArray items =>
      (fix each (first : bool) (l : list JSON) : option jsstring :=
         match l with
         | [] => Some []
         | x :: l' =>
             let sep := if first then [] else lit "," in
             match x with
             | JNull => rest ← each false l'; Some (sep ++ rest)
             | _ => s ← ToString x; rest ← each false l'; Some (sep ++ s ++ rest)
             end
         end) true items
  | JObject fields =>
      match lookup_field (lit "toString") fields with
      | Some _ => None
      | None => Some (lit "[object Object]")
      end
  end.

(** [String(x)] for [x : unknown]. *)
Definition String_ (x : unknown) : option jsstring :=
  match x with
  | None => Some (lit "undefined")
  | Some v => ToString v
  end.

(** ** The structured report and the normaliser *)

(** [content: string | StructuredReport].  A report is the service's object
    itself under a cast, so it is carried as the JSON value. *)
Inductive Content :=
  | CText (s : jsstring)
  | CReport (report : JSON).

(** [isStructuredReport]. *)
Definition isStructuredReport (data : unknown) : bool :=
  match data with
  | Some ((JObject _ | JArray _) as d) =>
      has (lit "summary") d || has (lit "abnormal_findings") d || has (lit "urgency") d
  | _ => false
  end.

(** The loop of [extractContent] over [Object.values(d)]. *)
Fixpoint first_report (values : list JSON) : option JSON :=
  match values with
  | [] => None
  | v :: rest => if isStructuredReport (Some v) then Some v else first_report rest
  end.

(** The plain text field of [extractContent]:
    [d.response ?? d.message ?? d.reply ?? d.text ?? d.content]. *)
Definition top_field (d : JSON) : unknown :=
  get (lit "response") d ?? get (lit "message") d ?? get (lit "reply") d
    ?? get (lit "text") d ?? get (lit "content") d.

Definition Boolean_toString (b : bool) : jsstring :=
  if b then lit "true" else lit "false".

(** [extractContent]. *)
Definition extractContent (data : unknown) : Content :=
  match data with
  | Some (JString s) => CText s
  | None | Some JNull => CText []
  | Some ((JObject _ | JArray _) as d) =>
      match top_field d with
      | Some (JString top) => CText top
      | _ =>
          if isStructuredReport (Some d) then CReport d
          else match first_report (Object_values d) with
               | Some v => CReport v
               | None => CText (JSON_stringify d)
               end
      end
  | Some (JBool b) => CText (Boolean_toString b)
  | Some (JNumber n) => CText (Number_toString n)
  end.

(** ** List coercion *)

(** [string | string[] | undefined], the parameter of [toList]. *)
Inductive ListField :=
  | LUndefined
  | LString (s : jsstring)
  | LArray (items : list jsstring).

(** The separators of [split(/[\n;]/)]: line feed and semicolon. *)
Definition is_separator (c : unit16) : bool := (c =? 10) || (c =? 59).

(** [s.split(/[\n;]/)]: one segment more than there are separators. *)
Fixpoint split (s : jsstring) : list jsstring :=
  match s with
  | [] => [[]]
  | c :: r =>
      if is_separator c then [] :: split r
      else match split r with
           | seg :: segs => (c :: seg) :: segs
           | [] => [[c]]
           end
  end.

(** The class [[-•*]]: hyphen-minus, U+2022 BULLET, asterisk. *)
Definition is_bullet (c : unit16) : bool := (c =? 45) || (c =? 8226) || (c =? 42).

(** [s.replace(/^[-•*]\s*/, "")]: at the start of the string only, one
    bullet and the white space after it, of which there may be none. *)
Definition strip_bullet (s : jsstring) : jsstring :=
  match s with
  | c :: r => if is_bullet c then trimStart r else s
  | [] => []
  end.

(** [toList]. *)
Definition toList (val : ListField) : list jsstring :=
  match val with
  | LUndefined => []
  | LString [] => []
  | LArray items => List.filter truthy items
  | LString s => List.filter truthy (map (fun seg => trim (strip_bullet seg)) (split s))
  end.

(** A field of a report read at its declared type
    [string | string[] | undefined]; [None] for a value outside that type. *)
Fixpoint strings_of (items : list JSON) : option (list jsstring) :=
  match items with
  | [] => Some []
  | JString s :: rest => l ← strings_of rest; Some (s :: l)
  | _ :: _ => None
  end.

Definition list_field (k : jsstring) (report : JSON) : option ListField :=
  match get k report with
  | None => Some LUndefined
  | Some (JString s) => Some (LString s)
  | Some (JArray items) => LArray <$> strings_of items
  | Some _ => None
  end.

(** ** The conversation id *)

(** The body of [createConversation] after [res.json()]: [None] is a thrown
    [TypeError] (a property read of [null], or [String] of an object without
    a primitive value), which rejects the promise. *)
Definition createConversation_id (data : JSON) : option jsstring :=
  match data with
  | JNull => None
  | _ =>
      String_ (get (lit "conversation_id") data ?? get (lit "id") data
                 ?? get (lit "_id") data ?? head (Object_values data))
  end.

(** ** The chat session *)

Inductive Role := user | assistant.

(** A [File]: its name, and a tag standing for its bytes. *)
Record File := { name : jsstring; bytes : N }.

Record Message := {
  id : jsstring;
  role : Role;
  content : Content;
  fileName : option jsstring
}.

(** [n.toString()] for a time stamp. *)
Definition decimal (n : N) : jsstring :=
  lit (NilEmpty.string_of_uint (N.to_uint n)).

(** The requests of the component. *)
Inductive Request :=
  | PostConversation (title : jsstring)
  | PostChat (conversationId : jsstring) (message : jsstring)
  | PostAnalyzeReport (conversationId : jsstring) (file : File) (message : jsstring).

(** How an awaited [fetch] followed by [res.json()] settles: with the parsed
    body, or with an exception. *)
Inductive Outcome :=
  | Reply (data : JSON)
  | Failure (error : jsstring).

(** The state hooks of [ExpandableAIChat], then the requests that are
    awaited, by ticket, and the next ticket. *)
Record Session := {
  value : jsstring;
  messages : list Message;
  isTyping : bool;
  conversationId : option jsstring;
  pendingFile : option File;
  inflight : gmap nat Request;
  issued : nat
}.

Definition setValue (v : jsstring) (s : Session) : Session :=
  {| value := v; messages := messages s; isTyping := isTyping s;
     conversationId := conversationId s; pendingFile := pendingFile s;
     inflight := inflight s; issued := issued s |}.

Definition setMessages (f : list Message -> list Message) (s : Session) : Session :=
  {| value := value s; messages := f (messages s); isTyping := isTyping s;
     conversationId := conversationId s; pendingFile := pendingFile s;
     inflight := inflight s; issued := issued s |}.

Definition setIsTyping (b : bool) (s : Session) : Session :=
  {| value := value s; messages := messages s; isTyping := b;
     conversationId := conversationId s; pendingFile := pendingFile s;
     inflight := inflight s; issued := issued s |}.

Definition setConversationId (c : option jsstring) (s : Session) : Session :=
  {| value := value s; messages := messages s; isTyping := isTyping s;
     conversationId := c; pendingFile := pendingFile s;
     inflight := inflight s; issued := issued s |}.

Definition setPendingFile (f : option File) (s : Session) : Session :=
  {| value := value s; messages := messages s; isTyping := isTyping s;
     conversationId := conversationId s; pendingFile := f;
     inflight := inflight s; issued := issued s |}.

(** [fetch(...)]: the request is awaited under a fresh ticket. *)
Definition fetch (r : Request) (s : Session) : Session :=
  {| value := value s; messages := messages s; isTyping := isTyping s;
     conversationId := conversationId s; pendingFile := pendingFile s;
     inflight := <[issued s := r]> (inflight s); issued := S (issued s) |}.

(** The awaited request has settled. *)
Definition settled (ticket : nat) (s : Session) : Session :=
  {| value := value s; messages := messages s; isTyping := isTyping s;
     conversationId := conversationId s; pendingFile := pendingFile s;
     inflight := delete ticket (inflight s); issued := issued s |}.

(** [conversationId] as a condition: neither [null] nor the empty string. *)
Definition hasConversation (s : Session) : bool :=
  match conversationId s with
  | Some c => truthy c
  | None => false
  end.

Definition fallback : jsstring := lit "Sorry, couldn't reach the server.".

Definition shownDefaultPrompt : jsstring := lit "Analyze this report".

Definition sentDefaultPrompt : jsstring := lit "Please analyze this medical report.".

Definition title : jsstring := lit "Health Chat".

(** [createConversation], up to its [await]; the mount effect and
    [clearChat] continue it alike. *)
Definition createConversation (s : Session) : Session :=
  fetch (PostConversation title) s.

(** [clearChat], up to its [await]. *)
Definition clearChat (s : Session) : Session :=
  createConversation
    (setPendingFile None (setConversationId None (setMessages (fun _ => []) s))).

(** [runAnalysis], up to its [await]. *)
Definition runAnalysis (file : File) (prompt : jsstring) (now : N) (s : Session) : Session :=
  match conversationId s with
  | Some cid =>
      if truthy cid then
        let userMsg :=
          {| id := decimal now; role := user;
             content := CText (or_else prompt shownDefaultPrompt);
             fileName := Some (name file) |} in
        fetch (PostAnalyzeReport cid file (or_else prompt sentDefaultPrompt))
          (setIsTyping true (setMessages (fun prev => prev ++ [userMsg]) s))
      else s
  | None => s
  end.

(** [sendMessage], up to its [await]. *)
Definition sendMessage (now : N) (s : Session) : Session :=
  let text := trim (value s) in
  if negb (truthy text) && negb (bool_decide (is_Some (pendingFile s))) then s
  else
    match conversationId s with
    | None => s
    | Some cid =>
        if negb (truthy cid) then s
        else
          match pendingFile s with
          | Some file => runAnalysis file text now (setValue [] (setPendingFile None s))
          | None =>
              let userMsg :=
                {| id := decimal now; role := user; content := CText text;
                   fileName := None |} in
              fetch (PostChat cid text)
                (setIsTyping true (setValue [] (setMessages (fun prev => prev ++ [userMsg]) s)))
          end
    end.

(** The assistant's message of the [try] and of the [catch] of
    [sendMessage] and [runAnalysis]. *)
Definition assistantMsg (o : Outcome) (now : N) : Message :=
  {| id := decimal (now + 1); role := assistant;
     content := match o with
                | Reply data => extractContent (Some data)
                | Failure _ => CText fallback
                end;
     fileName := None |}.

(** The continuation of an [await] that settles. *)
Definition resume (ticket : nat) (o : Outcome) (now : N) (s : Session) : Session :=
  match inflight s !! ticket with
  | None => s
  | Some (PostConversation _) =>
      match o with
      | Reply data =>
          match createConversation_id data with
          | Some c => setConversationId (Some c) (settled ticket s)
          | None => settled ticket s
          end
      | Failure _ => settled ticket s
      end
  | Some (PostChat _ _) | Some (PostAnalyzeReport _ _ _) =>
      setIsTyping false
        (setMessages (fun prev => prev ++ [assistantMsg o now]) (settled ticket s))
  end.

(** What happens to the component. *)
Inductive Event :=
  | Mount
  | Input (text : jsstring)
  | PickFile (f : File)
  | DropFile
  | PressSend (now : N)
  | AnalyzeReport (f : File) (message : jsstring) (now : N)
  | NewChat
  | Settle (ticket : nat) (o : Outcome) (now : N).

Definition step (s : Session) (e : Event) : Session :=
  match e with
  | Mount => createConversation s
  | Input text => setValue text s
  | PickFile f => setPendingFile (Some f) s
  | DropFile => setPendingFile None s
  | PressSend now => sendMessage now s
  | AnalyzeReport f message now => runAnalysis f message now s
  | NewChat => clearChat s
  | Settle ticket o now => resume ticket o now s
  end.

Definition run (events : list Event) (s : Session) : Session :=
  foldl step s events.

(** The component before its first effect. *)
Definition initial : Session :=
  {| value := []; messages := []; isTyping := false; conversationId := None;
     pendingFile := None; inflight := ∅; issued := 0 |}.

(** [Ready] of the session: an id is assigned and nothing is awaited by a send. *)
Definition Ready (s : Session) : Prop :=
  hasConversation s = true /\ isTyping s = false.

(** [Sending]: an id is assigned and the typing indicator is shown. *)
Definition Sending (s : Session) : Prop :=
  hasConversation s = true /\ isTyping s = true.

(** ** The page *)

(** The state of [Home] that [handleAnalyze] reads. *)
Record Home := { file : option File; prompt : jsstring }.

(** [handleAnalyze]: the page's file and prompt are cleared whether or not
    the chat takes the report. *)
Definition handleAnalyze (now : N) (h : Home) (s : Session) : Home * Session :=
  match file h with
  | None => (h, s)
  | Some f =>
      ({| file := None; prompt := [] |},
       step s (AnalyzeReport f (or_else (prompt h) sentDefaultPrompt) now))
  end.

(** ** Vocabulary of the statements *)

(** A run of white space. *)
Definition spaces (s : jsstring) : Prop := Forall (fun c => is_space c = true) s.

(** The segments of [split] put back together with separators between them. *)
Fixpoint interleave (segs : list jsstring) (seps : list unit16) : jsstring :=
  match segs, seps with
  | seg :: segs', c :: seps' => seg ++ c :: interleave segs' seps'
  | seg :: _, [] => seg
  | [], _ => []
  end.

(** White space or nothing at the head of a string. *)
Definition starts_clean (s : jsstring) : Prop :=
  forall c, head s = Some c -> is_space c = false.

(** The reply keys of [extractContent], in the order they are read. *)
Definition reply_keys : list jsstring :=
  [lit "response"; lit "message"; lit "reply"; lit "text"; lit "content"].

(** The keys that make an object a structured report. *)
Definition report_keys : list jsstring :=
  [lit "summary"; lit "abnormal_findings"; lit "urgency"].

(** A field that is absent or [null]. *)
Definition absent_or_null (k : jsstring) (fields : list (jsstring * JSON)) : Prop :=
  lookup_field k fields = None \/ lookup_field k fields = Some JNull.

(** A chain [d.k1 ?? d.k2 ?? ... ?? d.kn]. *)
Fixpoint first_non_null (keys : list jsstring) (fields : list (jsstring * JSON)) : unknown :=
  match keys with
  | [] => None
  | [k] => lookup_field k fields
  | k :: rest => lookup_field k fields ?? first_non_null rest fields
  end.

(** The normaliser's third rule as the specification words it: the value of
    the first string-valued field in the order of the keys. *)
Fixpoint first_string_field (keys : list jsstring) (fields : list (jsstring * JSON))
  : option jsstring :=
  match keys with
  | [] => None
  | k :: rest =>
      match lookup_field k fields with
      | Some (JString s) => Some s
      | _ => first_string_field rest fields
      end
  end.

(** List coercion as the specification words it: a bullet marker is one of
    the three characters followed by white space. *)
Definition strip_marker_worded (s : jsstring) : jsstring :=
  match s with
  | c :: w :: r => if is_bullet c && is_space w then trimStart r else s
  | _ => s
  end.

Definition toList_worded (val : ListField) : list jsstring :=
  match val with
  | LUndefined => []
  | LArray items => filter (fun s => s <> []) items
  | LString s =>
      filter (fun seg => seg <> []) (map (fun seg => trim (strip_marker_worded seg)) (split s))
  end.

(** A request made by [sendMessage] or [runAnalysis]. *)
Definition is_send (r : Request) : Prop :=
  match r with
  | PostConversation _ => False
  | PostChat _ _ | PostAnalyzeReport _ _ _ => True
  end.

(** Tickets are handed out in order: every awaited one is below the next. *)
Definition tickets_issued (s : Session) : Prop :=
  forall k r, inflight s !! k = Some r -> (k < issued s)%nat.

(** [segs] are the pieces of [s] between its separators. *)
Definition cut_at_separators (s : jsstring) (segs : list jsstring) : Prop :=
  exists seps,
    Forall (fun c => is_separator c = true) seps /\
    length segs = S (length seps) /\
    interleave segs seps = s /\
    Forall (Forall (fun c => is_separator c = false)) segs.

(** [t] is [s] without the white space at its two ends. *)
Definition trimmed (s t : jsstring) : Prop :=
  exists pre post,
    s = pre ++ t ++ post /\ spaces pre /\ spaces post /\
    starts_clean t /\ (forall c, last t = Some c -> is_space c = false).

(** ** The rest of the component *)

(** [canSend], the condition under which the send button is enabled. *)
Definition canSend (s : Session) : bool :=
  (truthy (trim (value s)) || bool_decide (is_Some (pendingFile s)))
  && hasConversation s.

(** [handleKeyDown]: Enter without Shift sends. *)
Definition handleKeyDown (key : jsstring) (shiftKey : bool) (now : N) (s : Session)
  : Session :=
  if bool_decide (key = lit "Enter") && negb shiftKey then sendMessage now s else s.

(** [Boolean(x)] for a JSON value or [undefined]; a zero prints as 0. *)
Definition Boolean (x : unknown) : bool :=
  match x with
  | None | Some JNull => false
  | Some (JBool b) => b
  | Some (JNumber (Finite t)) => negb (bool_decide (t = lit "0"))
  | Some (JNumber (Infinite _)) => true
  | Some (JString s) => truthy s
  | Some (JArray _) | Some (JObject _) => true
  end.

(** [toList] on whatever value a report holds, the cast of [extractContent]
    being unchecked.  [None] is the [TypeError] of [val.split] on a value
    that has no such method. *)
Definition toList_dyn (val : unknown) : option (list JSON) :=
  if negb (Boolean val) then Some []
  else match val with
       | Some (JArray items) => Some (List.filter (fun v => Boolean (Some v)) items)
       | Some (JString s) =>
           Some (map JString
                   (List.filter truthy (map (fun seg => trim (strip_bullet seg)) (split s))))
       | _ => None
       end.

#[global] Instance Role_eq_dec : EqDecision Role.
Proof. solve_decision. Defined.

#[global] Instance is_send_dec (r : Request) : Decision (is_send r).
Proof. destruct r; simpl; apply _. Defined.

(** The sends that are awaited. *)
Definition awaited_sends (s : Session) : gmap nat Request :=
  filter (fun kr => is_send kr.2) (inflight s).

(** The messages of one role in a transcript. *)
Definition of_role (ro : Role) (l : list Message) : list Message :=
  filter (fun m => role m = ro) l.

(** The reading of [Date.now()] an event carries. *)
Definition stamp (e : Event) : option N :=
  match e with
  | PressSend now | AnalyzeReport _ _ now | Settle _ _ now => Some now
  | _ => None
  end.

(** Events whose clock readings are two milliseconds apart or more, the
    first one at [from] or later. *)
Fixpoint spaced (from : N) (events : list Event) : Prop :=
  match events with
  | [] => True
  | e :: rest =>
      match stamp e with
      | Some now => from <= now /\ spaced (now + 2) rest
      | None => spaced from rest
      end
  end.

(** The smallest clock reading a later event may carry. *)
Fixpoint clock_after (from : N) (events : list Event) : N :=
  match events with
  | [] => from
  | e :: rest =>
      match stamp e with
      | Some now => clock_after (now + 2) rest
      | None => clock_after from rest
      end
  end.

(** What every request of the component looks like. *)
Definition well_formed_request (r : Request) : Prop :=
  match r with
  | PostConversation t => t = title
  | PostChat cid message => cid <> [] /\ message <> [] /\ trim message = message
  | PostAnalyzeReport cid _ message => cid <> [] /\ message <> []
  end.

(** What every message of a transcript looks like. *)
Definition well_formed_message (m : Message) : Prop :=
  match role m with
  | user => exists text, content m = CText text /\ text <> []
  | assistant => fileName m = None
  end.

(** A creation request that settles without a usable id: it fails, the
    body has no id that [String] can print, or the id is the empty string. *)
Definition without_id (o : Outcome) : Prop :=
  match o with
  | Failure _ => True
  | Reply data =>
      createConversation_id data = None \/ createConversation_id data = Some []
  end.

(** Events other than the mount and the reset, the two that ask for a
    conversation. *)
Definition asks_nothing (e : Event) : Prop :=
  match e with
  | Mount | NewChat => False
  | _ => True
  end.

(** What one transition does to the transcript, the indicator, the id and
    the awaited requests, by the kind of the transition. *)
Inductive effect (s : Session) : Event -> Session -> Prop :=
  | effect_none e s' :
      messages s' = messages s -> isTyping s' = isTyping s ->
      conversationId s' = conversationId s ->
      inflight s' = inflight s -> issued s' = issued s ->
      e <> NewChat ->
      effect s e s'
  | effect_send e now r m s' :
      stamp e = Some now -> e <> NewChat ->
      is_send r -> well_formed_request r ->
      role m = user -> well_formed_message m -> id m = decimal now ->
      messages s' = messages s ++ [m] -> isTyping s' = true ->
      conversationId s' = conversationId s ->
      inflight s' = <[issued s := r]> (inflight s) -> issued s' = S (issued s) ->
      effect s e s'
  | effect_reply k r o now s' :
      inflight s !! k = Some r -> is_send r ->
      messages s' = messages s ++ [assistantMsg o now] -> isTyping s' = false ->
      conversationId s' = conversationId s ->
      inflight s' = delete k (inflight s) -> issued s' = issued s ->
      effect s (Settle k o now) s'
  | effect_created k t o now s' :
      inflight s !! k = Some (PostConversation t) ->
      messages s' = messages s -> isTyping s' = isTyping s ->
      inflight s' = delete k (inflight s) -> issued s' = issued s ->
      effect s (Settle k o now) s'
  | effect_ask s' :
      messages s' = messages s -> isTyping s' = isTyping s ->
      conversationId s' = conversationId s ->
      inflight s' = <[issued s := PostConversation title]> (inflight s) ->
      issued s' = S (issued s) ->
      effect s Mount s'
  | effect_reset s' :
      messages s' = [] -> isTyping s' = isTyping s ->
      conversationId s' = None -> pendingFile s' = None ->
      inflight s' = <[issued s := PostConversation title]> (inflight s) ->
      issued s' = S (issued s) ->
      effect s NewChat s'.

(** The ids of a transcript are clock readings below [from], all different. *)
Definition ids_below (from : N) (s : Session) : Prop :=
  Forall (fun m => exists n, id m = decimal n /\ n < from) (messages s) /\
  NoDup (map id (messages s)).

(** * Properties *)

(** ** Strings: trimming and splitting *)

Section Strings.

Implicit Types (s seg : jsstring) (c : unit16).

Lemma truthy_nonempty s : truthy s = true <-> s <> [].
Proof. destruct s; simpl; split; congruence. Qed.

Lemma filter_truthy (l : list jsstring) :
  List.filter truthy l = filter (fun s => s <> []) l.
Proof.
  induction l as [|s l IH]; [reflexivity|].
  cbn [List.filter]. rewrite IH.
  destruct s as [|c r]; simpl.
  - rewrite filter_cons_False by tauto. reflexivity.
  - rewrite filter_cons_True by discriminate. reflexivity.
Qed.

Lemma trimStart_spec s :
  exists pre, s = pre ++ trimStart s /\ spaces pre /\
              forall c, head (trimStart s) = Some c -> is_space c = false.
Proof.
  induction s as [|c r (pre & Hr & Hpre & Hhd)]; simpl.
  - exists []. repeat split; [constructor | discriminate].
  - destruct (is_space c) eqn:Hc.
    + exists (c :: pre). simpl. rewrite <- Hr.
      repeat split; [constructor; assumption | assumption].
    + exists []. repeat split; [constructor|].
      intros c' Hc'. simpl in Hc'. congruence.
Qed.

Lemma trimEnd_spec s :
  exists post, s = trimEnd s ++ post /\ spaces post /\
               forall c, last (trimEnd s) = Some c -> is_space c = false.
Proof.
  induction s as [|c r (post & Hr & Hpost & Hlast)]; simpl.
  - exists []. split; [reflexivity|]. split; [constructor | discriminate].
  - destruct (trimEnd r) as [|c' r'] eqn:Hte.
    + simpl in Hr. subst r. destruct (is_space c) eqn:Hc.
      * exists (c :: post). split; [reflexivity|].
        split; [constructor; assumption | discriminate].
      * exists post. split; [reflexivity|]. split; [assumption|].
        intros x Hx. simpl in Hx. congruence.
    + exists post. split; [rewrite Hr at 1; reflexivity|]. split; [assumption|].
      intros x Hx. apply Hlast. rewrite last_cons in Hx.
      destruct (last (c' :: r')) eqn:E; [assumption|].
      rewrite last_cons in E. destruct (last r'); discriminate.
Qed.

Lemma trimEnd_head s c :
  head (trimEnd s) = Some c -> head s = Some c.
Proof.
  destruct (trimEnd_spec s) as (post & Hs & _).
  intros H. rewrite Hs. destruct (trimEnd s); [discriminate | exact H].
Qed.

(** [trim] removes white space at both ends and nothing else. *)
Lemma trim_spec s :
  exists pre post,
    s = pre ++ trim s ++ post /\ spaces pre /\ spaces post /\
    (forall c, head (trim s) = Some c -> is_space c = false) /\
    (forall c, last (trim s) = Some c -> is_space c = false).
Proof.
  unfold trim.
  destruct (trimStart_spec s) as (pre & Hs & Hpre & Hhd).
  destruct (trimEnd_spec (trimStart s)) as (post & Ht & Hpost & Hlast).
  exists pre, post. repeat split; try assumption.
  - rewrite <- Ht. exact Hs.
  - intros c Hc. apply Hhd. apply trimEnd_head. exact Hc.
Qed.

(** A string that has no white space at either end is left as it is. *)
Lemma trimStart_id s :
  (forall c, head s = Some c -> is_space c = false) -> trimStart s = s.
Proof.
  destruct s as [|c r]; [reflexivity|]. simpl. intros H.
  rewrite (H c eq_refl). reflexivity.
Qed.

Lemma trimStart_spaces pre s :
  spaces pre -> trimStart (pre ++ s) = trimStart s.
Proof.
  induction 1 as [|c pre Hc _ IH]; [reflexivity|]. simpl. rewrite Hc. exact IH.
Qed.

Lemma split_nonempty s : split s <> [].
Proof.
  destruct s as [|c r]; simpl; [discriminate|].
  destruct (is_separator c); [discriminate|].
  destruct (split r); discriminate.
Qed.

(** [split] cuts at every separator and nowhere else. *)
Lemma split_spec s :
  exists seps,
    Forall (fun c => is_separator c = true) seps /\
    length (split s) = S (length seps) /\
    interleave (split s) seps = s /\
    Forall (Forall (fun c => is_separator c = false)) (split s).
Proof.
  induction s as [|c r (seps & Hseps & Hlen & Hjoin & Hfree)]; simpl.
  - exists []. repeat split; repeat constructor.
  - destruct (is_separator c) eqn:Hc.
    + exists (c :: seps). simpl. rewrite Hlen, Hjoin.
      repeat split; [constructor; assumption | constructor; [constructor | assumption]].
    + destruct (split r) as [|seg segs] eqn:Hsp; [simpl in Hlen; discriminate|].
      exists seps. simpl in *. repeat split; try assumption.
      * destruct seps; simpl in *; congruence.
      * inversion Hfree; subst. constructor; [constructor; assumption | assumption].
Qed.

(** [strip_bullet] takes one leading bullet and the white space after it. *)
Lemma strip_bullet_bullet c ws rest :
  is_bullet c = true -> spaces ws ->
  (forall c', head rest = Some c' -> is_space c' = false) ->
  strip_bullet (c :: ws ++ rest) = rest.
Proof.
  intros Hc Hws Hrest. simpl. rewrite Hc.
  rewrite trimStart_spaces by assumption. apply trimStart_id. assumption.
Qed.

Lemma strip_bullet_other seg :
  (forall c, head seg = Some c -> is_bullet c = false) -> strip_bullet seg = seg.
Proof.
  destruct seg as [|c r]; [reflexivity|]. simpl. intros H.
  rewrite (H c eq_refl). reflexivity.
Qed.

End Strings.

(** ** The normaliser *)

Section Normaliser.

Implicit Types (fields : list (jsstring * JSON)) (k : jsstring) (v : JSON).

Lemma top_field_chain fields :
  top_field (JObject fields) = first_non_null reply_keys fields.
Proof. reflexivity. Qed.

Lemma nullish_skip (a b : unknown) :
  a = None \/ a = Some JNull -> a ?? b = b.
Proof. intros [-> | ->]; reflexivity. Qed.

Lemma nullish_take v (b : unknown) :
  v <> JNull -> Some v ?? b = Some v.
Proof. destruct v; simpl; congruence. Qed.

(** The chain stops at the first field that is present and not null. *)
Lemma first_non_null_at before k after fields v :
  Forall (fun k' => absent_or_null k' fields) before ->
  lookup_field k fields = Some v -> v <> JNull ->
  first_non_null (before ++ k :: after) fields = Some v.
Proof.
  intros Hbefore Hk Hv.
  induction Hbefore as [|k' before Hk' _ IH].
  - simpl. destruct after; [assumption|]. rewrite Hk. apply nullish_take, Hv.
  - rewrite <- app_comm_cons.
    destruct (before ++ k :: after) as [|k2 keys] eqn:E; [destruct before; discriminate|].
    change (lookup_field k' fields ?? first_non_null (k2 :: keys) fields = Some v).
    rewrite IH. apply nullish_skip, Hk'.
Qed.

(** What the chain yields is the value of one of its keys. *)
Lemma first_non_null_in keys fields v :
  first_non_null keys fields = Some v ->
  exists k, k ∈ keys /\ lookup_field k fields = Some v.
Proof.
  induction keys as [|k keys IH]; simpl; [discriminate|].
  destruct keys as [|k2 keys].
  - intros H. exists k. split; [left | exact H].
  - intros H. destruct (lookup_field k fields) as [x|] eqn:Hk.
    + destruct x; simpl in H;
        [ destruct (IH H) as (k' & Hin & Hk'); exists k'; split; [right|]; assumption
        | exists k; split; [left | congruence] .. ].
    + destruct (IH H) as (k' & Hin & Hk'). exists k'. split; [right|]; assumption.
Qed.

Lemma first_report_Some (values : list JSON) v :
  first_report values = Some v -> v ∈ values /\ isStructuredReport (Some v) = true.
Proof.
  induction values as [|x values IH]; cbn [first_report]; [discriminate|].
  destruct (isStructuredReport (Some x)) eqn:Hx.
  - intros H. injection H as H. subst x. split; [left | assumption].
  - intros H. destruct (IH H). split; [right|]; assumption.
Qed.

Lemma first_report_None (values : list JSON) :
  Forall (fun v => isStructuredReport (Some v) = false) values ->
  first_report values = None.
Proof.
  induction 1 as [|x values Hx _ IH]; cbn [first_report]; [reflexivity|].
  rewrite Hx. exact IH.
Qed.

(** The discriminator is the presence of one of the three keys. *)
Lemma isStructuredReport_object fields :
  isStructuredReport (Some (JObject fields)) = true <->
  exists k, k ∈ report_keys /\ is_Some (lookup_field k fields).
Proof.
  unfold isStructuredReport, has, report_keys.
  rewrite !orb_true_iff, !bool_decide_eq_true. split.
  - intros [[H|H]|H]; eexists; (split; [|exact H]); set_solver.
  - intros (k & Hk & H).
    apply elem_of_cons in Hk as [->|Hk]; [tauto|].
    apply elem_of_cons in Hk as [->|Hk]; [tauto|].
    apply elem_of_cons in Hk as [->|Hk]; [tauto|].
    apply elem_of_nil in Hk as [].
Qed.

(** Every result is a text or a value that passes the discriminator. *)
Lemma extractContent_total (data : unknown) :
  (exists s, extractContent data = CText s) \/
  (exists r, extractContent data = CReport r /\ isStructuredReport (Some r) = true).
Proof.
  destruct data as [[| b | n | s | items | fields]|]; cbn [extractContent]; eauto;
    (destruct (top_field _) as [[]|]; eauto);
    (destruct (isStructuredReport (Some _)) eqn:Hd; eauto);
    (destruct (first_report _) as [v|] eqn:Hv; eauto);
    right; exists v; (split; [reflexivity | eapply first_report_Some; eassumption]).
Qed.

(** The general form of the fall through: the text field is not a string. *)
Lemma extractContent_not_text fields :
  (forall s, top_field (JObject fields) <> Some (JString s)) ->
  extractContent (Some (JObject fields)) =
    if isStructuredReport (Some (JObject fields)) then CReport (JObject fields)
    else match first_report (map snd fields) with
         | Some v => CReport v
         | None => CText (JSON_stringify (JObject fields))
         end.
Proof.
  intros H. unfold extractContent.
  destruct (top_field (JObject fields)) as [[]|]; try reflexivity.
  exfalso. eapply H. reflexivity.
Qed.

Lemma no_string_reply_top fields :
  (forall k s, k ∈ reply_keys -> lookup_field k fields <> Some (JString s)) ->
  forall s, top_field (JObject fields) <> Some (JString s).
Proof.
  intros H s Htop. rewrite top_field_chain in Htop.
  apply first_non_null_in in Htop as (k & Hin & Hk). exact (H k s Hin Hk).
Qed.

End Normaliser.

(** ** Claims about the normaliser *)

(** C5.  A string is returned as it is, for every string; [null] and
    [undefined] give the empty string. *)
Theorem extractContent_string_verbatim :
  (forall s : jsstring, extractContent (Some (JString s)) = CText s) /\
  extractContent (Some JNull) = CText [] /\
  extractContent None = CText [].
Proof. repeat split. Qed.

(** A string-valued [response] is returned whatever else the object holds. *)
Lemma extractContent_response fields s :
  lookup_field (lit "response") fields = Some (JString s) ->
  extractContent (Some (JObject fields)) = CText s.
Proof.
  intros H. unfold extractContent. rewrite top_field_chain.
  change reply_keys
    with ([] ++ lit "response" :: [lit "message"; lit "reply"; lit "text"; lit "content"]).
  rewrite (first_non_null_at [] _ _ fields (JString s));
    [reflexivity | constructor | assumption | discriminate].
Qed.

(** An array goes the way of an object that has no reply field. *)
Lemma extractContent_array (items : list JSON) :
  extractContent (Some (JArray items))
  = match first_report items with
    | Some v => CReport v
    | None => CText (JSON_stringify (JArray items))
    end.
Proof. reflexivity. Qed.

(** A boolean or a number is printed by [String]. *)
Lemma extractContent_primitive (v : JSON) (s : jsstring) :
  (exists b, v = JBool b) \/ (exists n, v = JNumber n) ->
  ToString v = Some s -> extractContent (Some v) = CText s.
Proof.
  intros [[b ->] | [n ->]]; [destruct b|]; simpl; intros [= <-]; reflexivity.
Qed.

(** C2, as amended.  The reply keys are read in their fixed order up to the
    first field that is present and not null; when that field holds a string,
    the string is the result, whatever the other fields are. *)
Theorem extractContent_reply_field fields before k after s :
  reply_keys = before ++ k :: after ->
  Forall (fun k' => absent_or_null k' fields) before ->
  lookup_field k fields = Some (JString s) ->
  extractContent (Some (JObject fields)) = CText s.
Proof.
  intros Hkeys Hbefore Hk. unfold extractContent.
  rewrite top_field_chain, Hkeys.
  rewrite (first_non_null_at before k after fields (JString s));
    [reflexivity | assumption | assumption | discriminate].
Qed.

Lemma extractContent_reply_field_witness :
  extractContent
    (Some (JObject [ (lit "summary", JString (lit "x")); (lit "response", JNull);
                     (lit "message", JString (lit "hi"));
                     (lit "text", JBool true) ]))
  = CText (lit "hi").
Proof.
  apply (extractContent_reply_field _ [lit "response"] (lit "message")
           [lit "reply"; lit "text"; lit "content"]).
  - reflexivity.
  - constructor; [right; reflexivity | constructor].
  - reflexivity.
Defined.

(** C2, as stated, fails: a string-valued [message] behind a [response] that
    is a number is not returned; the whole object is printed instead. *)
Lemma extractContent_first_string_counterexample :
  first_string_field reply_keys
    [ (lit "response", JNumber (Finite (lit "42")));
      (lit "message", JString (lit "hi")) ] = Some (lit "hi") /\
  extractContent
    (Some (JObject [ (lit "response", JNumber (Finite (lit "42")));
                     (lit "message", JString (lit "hi")) ]))
  = CText (JSON_stringify
             (JObject [ (lit "response", JNumber (Finite (lit "42")));
                        (lit "message", JString (lit "hi")) ])) /\
  extractContent
    (Some (JObject [ (lit "response", JNumber (Finite (lit "42")));
                     (lit "message", JString (lit "hi")) ]))
  <> CText (lit "hi").
Proof.
  split; [reflexivity|]. split; [reflexivity|].
  intros H. vm_compute in H. discriminate H.
Qed.

(** C3.  Every input has a result, a text or a value that passes the
    discriminator; an object with no string-valued reply field that is not a
    report and holds no report is printed whole by [JSON.stringify(d, null, 2)];
    the empty object gives the two characters of an empty object. *)
Theorem extractContent_fallback :
  (forall data : unknown,
      (exists s, extractContent data = CText s) \/
      (exists r, extractContent data = CReport r /\ isStructuredReport (Some r) = true)) /\
  (forall fields : list (jsstring * JSON),
      (forall k s, k ∈ reply_keys -> lookup_field k fields <> Some (JString s)) ->
      isStructuredReport (Some (JObject fields)) = false ->
      Forall (fun v => isStructuredReport (Some v) = false) (map snd fields) ->
      extractContent (Some (JObject fields)) = CText (JSON_stringify (JObject fields))) /\
  extractContent (Some (JObject [])) = CText (lit "{}").
Proof.
  split; [exact extractContent_total|]. split; [|reflexivity].
  intros fields Hreply Htop Hnested.
  rewrite extractContent_not_text by (apply no_string_reply_top, Hreply).
  rewrite Htop. change (Object_values (JObject fields)) with (map snd fields).
  rewrite first_report_None by assumption. reflexivity.
Qed.

Ltac each_key H :=
  repeat (apply elem_of_cons in H as [->|H]); [..|apply elem_of_nil in H as []].

Lemma extractContent_fallback_witness :
  extractContent
    (Some (JObject [ (lit "status", JString (lit "ok"));
                     (lit "items", JArray [JNull; JBool true]) ]))
  = CText ([123; 10] ++ lit "  " ++ [34] ++ lit "status" ++ [34] ++ lit ": "
             ++ [34] ++ lit "ok" ++ [34] ++ lit "," ++ [10]
             ++ lit "  " ++ [34] ++ lit "items" ++ [34] ++ lit ": [" ++ [10]
             ++ lit "    null," ++ [10] ++ lit "    true" ++ [10]
             ++ lit "  ]" ++ [10] ++ lit "}").
Proof.
  destruct extractContent_fallback as (_ & Hfall & _).
  rewrite Hfall.
  - reflexivity.
  - intros k s Hk. each_key Hk; vm_compute; discriminate.
  - reflexivity.
  - repeat constructor.
Defined.

(** C4.  An object that holds one of [summary], [abnormal_findings],
    [urgency] and no string-valued reply field is returned itself, as the
    report; for the object with the single field [summary] equal to ok the
    report's summary is ok and its three list fields coerce to empty lists. *)
Theorem extractContent_report :
  (forall fields : list (jsstring * JSON),
      (exists k, k ∈ report_keys /\ is_Some (lookup_field k fields)) ->
      (forall k s, k ∈ reply_keys -> lookup_field k fields <> Some (JString s)) ->
      extractContent (Some (JObject fields)) = CReport (JObject fields)) /\
  (let r := JObject [(lit "summary", JString (lit "ok"))] in
   extractContent (Some r) = CReport r /\
   get (lit "summary") r = Some (JString (lit "ok")) /\
   toList <$> list_field (lit "abnormal_findings") r = Some [] /\
   toList <$> list_field (lit "recommended_tests") r = Some [] /\
   toList <$> list_field (lit "lifestyle_suggestions") r = Some []).
Proof.
  split; [|repeat split].
  intros fields Hreport Hreply.
  rewrite extractContent_not_text by (apply no_string_reply_top, Hreply).
  apply isStructuredReport_object in Hreport. rewrite Hreport. reflexivity.
Qed.

Lemma extractContent_report_witness :
  extractContent
    (Some (JObject [ (lit "message", JNull); (lit "urgency", JString (lit "high"));
                     (lit "recommended_tests", JArray [JString (lit "CBC")]) ]))
  = CReport
      (JObject [ (lit "message", JNull); (lit "urgency", JString (lit "high"));
                 (lit "recommended_tests", JArray [JString (lit "CBC")]) ]).
Proof.
  destruct extractContent_report as (Hrep & _).
  apply Hrep.
  - exists (lit "urgency"). split; [set_solver | eexists; reflexivity].
  - intros k s Hk. each_key Hk; vm_compute; discriminate.
Defined.

(** ** Claims about list coercion and the conversation id *)

(** C6, as amended.  Nothing and the empty string give the empty list; a
    list keeps its non-empty entries in order; a string is cut at every line
    feed and semicolon, each piece loses one leading bullet together with the
    white space after it, of which there need be none, then the white space
    at its ends, and the non-empty pieces are kept in order. *)
Theorem toList_coercion :
  toList LUndefined = [] /\ toList (LString []) = [] /\ toList (LArray []) = [] /\
  (forall items, toList (LArray items) = filter (fun s => s <> []) items) /\
  (forall s,
      toList (LString s)
      = filter (fun seg => seg <> []) (map (fun seg => trim (strip_bullet seg)) (split s))) /\
  (forall s, cut_at_separators s (split s)) /\
  (forall s, trimmed s (trim s)) /\
  (forall c ws rest,
      is_bullet c = true -> spaces ws -> starts_clean rest ->
      strip_bullet (c :: ws ++ rest) = rest) /\
  (forall seg,
      (forall c, head seg = Some c -> is_bullet c = false) -> strip_bullet seg = seg) /\
  toList (LString (lit "a; b" ++ [10] ++ lit "- c")) = [lit "a"; lit "b"; lit "c"] /\
  toList (LArray [lit "x"; lit ""; lit "y"]) = [lit "x"; lit "y"].
Proof.
  repeat apply conj; try reflexivity.
  - intros items. apply filter_truthy.
  - intros [|c r]; [reflexivity|]. apply filter_truthy.
  - exact split_spec.
  - exact trim_spec.
  - exact strip_bullet_bullet.
  - exact strip_bullet_other.
Qed.

Lemma toList_coercion_witness :
  strip_bullet ([8226] ++ lit "  " ++ lit "x y") = lit "x y" /\
  strip_bullet (lit "x-y") = lit "x-y".
Proof.
  destruct toList_coercion as (_ & _ & _ & _ & _ & _ & _ & Hbullet & Hother & _).
  split.
  - apply (Hbullet 8226 (lit "  ") (lit "x y")).
    + reflexivity.
    + repeat constructor.
    + intros c Hc. injection Hc as <-. reflexivity.
  - apply Hother. intros c Hc. injection Hc as <-. reflexivity.
Defined.

(** C6, as stated, fails: a bullet with no white space after it is stripped
    all the same. *)
Lemma toList_bullet_counterexample :
  toList (LString (lit "-c")) = [lit "c"] /\
  toList_worded (LString (lit "-c")) = [lit "-c"] /\
  toList (LString (lit "-c")) <> toList_worded (LString (lit "-c")).
Proof.
  split; [reflexivity|]. split; [reflexivity|].
  intros H. vm_compute in H. discriminate H.
Qed.

(** C9.  The id is [String] of the first of [conversation_id], [id], [_id]
    that is present and not null, and of the value of the first field when
    none is; a string is its own [String]. *)
Theorem createConversation_id_fallback (fields : list (jsstring * JSON)) :
  (forall v, lookup_field (lit "conversation_id") fields = Some v -> v <> JNull ->
             createConversation_id (JObject fields) = ToString v) /\
  (forall v, absent_or_null (lit "conversation_id") fields ->
             lookup_field (lit "id") fields = Some v -> v <> JNull ->
             createConversation_id (JObject fields) = ToString v) /\
  (forall v, absent_or_null (lit "conversation_id") fields ->
             absent_or_null (lit "id") fields ->
             lookup_field (lit "_id") fields = Some v -> v <> JNull ->
             createConversation_id (JObject fields) = ToString v) /\
  (absent_or_null (lit "conversation_id") fields ->
   absent_or_null (lit "id") fields ->
   absent_or_null (lit "_id") fields ->
   createConversation_id (JObject fields) = String_ (head (map snd fields))) /\
  (forall s, ToString (JString s) = Some s).
Proof.
  unfold createConversation_id, get, Object_values.
  repeat apply conj.
  - intros v H Hv. rewrite H, nullish_take by assumption. reflexivity.
  - intros v H1 H Hv. rewrite (nullish_skip _ _ H1), H, nullish_take by assumption.
    reflexivity.
  - intros v H1 H2 H Hv.
    rewrite (nullish_skip _ _ H1), (nullish_skip _ _ H2), H, nullish_take by assumption.
    reflexivity.
  - intros H1 H2 H3.
    rewrite (nullish_skip _ _ H1), (nullish_skip _ _ H2), (nullish_skip _ _ H3).
    reflexivity.
  - reflexivity.
Qed.

Lemma createConversation_id_fallback_witness :
  createConversation_id
    (JObject [ (lit "ok", JBool true); (lit "conversation_id", JNull);
               (lit "id", JString (lit "c-17")) ]) = Some (lit "c-17") /\
  createConversation_id (JObject [ (lit "token", JNumber (Finite (lit "42"))) ])
  = Some (lit "42").
Proof.
  split.
  - destruct (createConversation_id_fallback
                [ (lit "ok", JBool true); (lit "conversation_id", JNull);
                  (lit "id", JString (lit "c-17")) ]) as (_ & Hid & _).
    rewrite (Hid (JString (lit "c-17"))).
    + reflexivity.
    + right. reflexivity.
    + reflexivity.
    + discriminate.
  - destruct (createConversation_id_fallback
                [ (lit "token", JNumber (Finite (lit "42"))) ]) as (_ & _ & _ & Hfirst & _).
    rewrite Hfirst; [reflexivity | left; reflexivity ..].
Defined.

(** ** The session *)

Section SessionFacts.

Implicit Types (s : Session) (r : Request) (o : Outcome) (e : Event).

Lemma hasConversation_true s :
  hasConversation s = true ->
  exists cid, conversationId s = Some cid /\ truthy cid = true.
Proof.
  unfold hasConversation. destruct (conversationId s) as [cid|]; [|discriminate].
  intros H. exists cid. split; [reflexivity | exact H].
Qed.

(** [sendMessage] with a draft and no file. *)
Lemma sendMessage_text s now cid :
  conversationId s = Some cid -> truthy cid = true ->
  pendingFile s = None -> trim (value s) <> [] ->
  sendMessage now s
  = fetch (PostChat cid (trim (value s)))
      (setIsTyping true
         (setValue []
            (setMessages
               (fun prev => prev ++ [ {| id := decimal now; role := user;
                                         content := CText (trim (value s));
                                         fileName := None |} ]) s))).
Proof.
  intros Hcid Ht Hfile Htext. unfold sendMessage.
  apply truthy_nonempty in Htext. rewrite Htext, Hcid, Ht, Hfile. reflexivity.
Qed.

(** [sendMessage] with a file: the draft, trimmed, is the prompt. *)
Lemma sendMessage_file s now cid f :
  conversationId s = Some cid -> truthy cid = true -> pendingFile s = Some f ->
  sendMessage now s
  = runAnalysis f (trim (value s)) now (setValue [] (setPendingFile None s)).
Proof.
  intros Hcid Ht Hfile. unfold sendMessage.
  rewrite Hcid, Ht, Hfile.
  rewrite bool_decide_eq_true_2 by (eexists; reflexivity).
  rewrite andb_false_r. reflexivity.
Qed.

Lemma runAnalysis_ready s f prompt now cid :
  conversationId s = Some cid -> truthy cid = true ->
  runAnalysis f prompt now s
  = fetch (PostAnalyzeReport cid f (or_else prompt sentDefaultPrompt))
      (setIsTyping true
         (setMessages
            (fun prev => prev ++ [ {| id := decimal now; role := user;
                                      content := CText (or_else prompt shownDefaultPrompt);
                                      fileName := Some (name f) |} ]) s)).
Proof. intros Hcid Ht. unfold runAnalysis. rewrite Hcid, Ht. reflexivity. Qed.

(** A send that settles appends the assistant's message to the transcript
    of that moment and clears the indicator. *)
Lemma resume_send s ticket r o now :
  inflight s !! ticket = Some r -> is_send r ->
  resume ticket o now s
  = setIsTyping false
      (setMessages (fun prev => prev ++ [assistantMsg o now]) (settled ticket s)).
Proof.
  intros Hr Hsend. unfold resume. rewrite Hr.
  destruct r; [destruct Hsend | reflexivity ..].
Qed.

(** The ticket discipline is an invariant of the component. *)
Lemma tickets_issued_fetch s r : tickets_issued s -> tickets_issued (fetch r s).
Proof.
  intros Hs k r' Hk. simpl in *.
  destruct (decide (k = issued s)) as [->|Hne]; [lia|].
  rewrite lookup_insert_ne in Hk by congruence. specialize (Hs k r' Hk). lia.
Qed.

Lemma tickets_issued_settled s k : tickets_issued s -> tickets_issued (settled k s).
Proof.
  intros Hs k' r Hk. simpl in *.
  destruct (decide (k = k')) as [->|Hne].
  - rewrite lookup_delete_eq in Hk. discriminate.
  - rewrite lookup_delete_ne in Hk by assumption. exact (Hs k' r Hk).
Qed.

Lemma tickets_issued_step s e : tickets_issued s -> tickets_issued (step s e).
Proof.
  intros Hs. destruct e; simpl.
  - apply tickets_issued_fetch, Hs.
  - exact Hs.
  - exact Hs.
  - exact Hs.
  - unfold sendMessage.
    destruct (_ && _); [exact Hs|].
    destruct (conversationId s) as [cid|] eqn:Hcid; [|exact Hs].
    destruct (truthy cid) eqn:Ht; [|exact Hs]. simpl.
    destruct (pendingFile s) as [f|].
    + erewrite runAnalysis_ready by (simpl; eassumption).
      apply tickets_issued_fetch. exact Hs.
    + apply tickets_issued_fetch. exact Hs.
  - unfold runAnalysis.
    destruct (conversationId s) as [cid|]; [|exact Hs].
    destruct (truthy cid); [|exact Hs].
    apply tickets_issued_fetch. exact Hs.
  - apply tickets_issued_fetch. exact Hs.
  - unfold resume. destruct (inflight s !! ticket) as [[]|]; [| | |exact Hs].
    + destruct o as [data|]; [destruct (createConversation_id data)|];
        apply (tickets_issued_settled s ticket Hs).
    + apply (tickets_issued_settled s ticket Hs).
    + apply (tickets_issued_settled s ticket Hs).
Qed.

Lemma tickets_issued_run events s :
  tickets_issued s -> tickets_issued (run events s).
Proof.
  revert s. induction events as [|e events IH]; intros s Hs; [exact Hs|].
  apply IH, tickets_issued_step, Hs.
Qed.

Lemma tickets_issued_reachable events : tickets_issued (run events initial).
Proof.
  apply tickets_issued_run. intros k r Hk. simpl in Hk.
  rewrite lookup_empty in Hk. discriminate.
Qed.

(** [clearChat] leaves the awaited sends awaited. *)
Lemma clearChat_keeps_inflight s ticket r :
  tickets_issued s -> inflight s !! ticket = Some r ->
  inflight (clearChat s) !! ticket = Some r.
Proof.
  intros Hs Hr. simpl. specialize (Hs ticket r Hr).
  rewrite lookup_insert_ne by lia. exact Hr.
Qed.

End SessionFacts.

(** ** Claims about the session *)

(** C8.  A send with a blank draft and no pending file leaves the session
    as it is, and so does every send and every report analysis while no
    conversation id is assigned: no message, no request, no change. *)
Theorem send_rejected (s : Session) (now : N) :
  (trim (value s) = [] /\ pendingFile s = None -> step s (PressSend now) = s) /\
  (hasConversation s = false ->
   step s (PressSend now) = s /\
   forall f prompt, step s (AnalyzeReport f prompt now) = s).
Proof.
  split.
  - intros [Htext Hfile]. simpl. unfold sendMessage. rewrite Htext, Hfile. reflexivity.
  - unfold hasConversation. intros Hcid. split.
    + simpl. unfold sendMessage. destruct (_ && _); [reflexivity|].
      destruct (conversationId s) as [cid|]; [|reflexivity]. rewrite Hcid. reflexivity.
    + intros f prompt. simpl. unfold runAnalysis.
      destruct (conversationId s) as [cid|]; [|reflexivity]. rewrite Hcid. reflexivity.
Qed.

Lemma send_rejected_witness :
  step (step (step initial Mount) (PickFile {| name := lit "scan.png"; bytes := 1 |}))
       (PressSend 7)
  = step (step initial Mount) (PickFile {| name := lit "scan.png"; bytes := 1 |}) /\
  step (step (step initial Mount)
          (Settle 0%nat (Reply (JObject [(lit "id", JString (lit "c1"))])) 3))
       (PressSend 7)
  = step (step initial Mount)
      (Settle 0%nat (Reply (JObject [(lit "id", JString (lit "c1"))])) 3).
Proof.
  split.
  - destruct (send_rejected
                (step (step initial Mount)
                   (PickFile {| name := lit "scan.png"; bytes := 1 |})) 7) as (_ & H).
    destruct H as (H & _); [reflexivity | exact H].
  - destruct (send_rejected
                (step (step initial Mount)
                   (Settle 0%nat (Reply (JObject [(lit "id", JString (lit "c1"))])) 3)) 7)
      as (H & _).
    apply H. split; reflexivity.
Defined.

(** C7.  A text send from [Ready] whose request fails leaves the transcript
    longer by two entries, the user's message with the trimmed draft and the
    assistant's fixed message, whatever the exception was; the session is
    [Ready] again with the same id, and the next send is taken. *)
Theorem send_failure_recovers (s : Session) (now now' : N) (error : jsstring) :
  Ready s -> pendingFile s = None -> trim (value s) <> [] ->
  let text := trim (value s) in
  let s1 := step s (PressSend now) in
  let s2 := step s1 (Settle (issued s) (Failure error) now') in
  (exists cid, conversationId s = Some cid /\
               inflight s1 !! issued s = Some (PostChat cid text)) /\
  Sending s1 /\
  messages s2
  = messages s
      ++ [ {| id := decimal now; role := user; content := CText text; fileName := None |};
           {| id := decimal (now' + 1); role := assistant; content := CText fallback;
              fileName := None |} ] /\
  length (messages s2) = (length (messages s) + 2)%nat /\
  Ready s2 /\ conversationId s2 = conversationId s /\
  forall text' now'',
    trim text' <> [] ->
    messages (step (step s2 (Input text')) (PressSend now''))
    = messages s2
        ++ [ {| id := decimal now''; role := user; content := CText (trim text');
                fileName := None |} ].
Proof.
  intros [Hconv Hidle] Hfile Htext text s1 s2.
  destruct (hasConversation_true s Hconv) as (cid & Hcid & Ht).
  assert (Hs1 : s1 = fetch (PostChat cid text)
                       (setIsTyping true
                          (setValue []
                             (setMessages
                                (fun prev => prev ++ [ {| id := decimal now; role := user;
                                                          content := CText text;
                                                          fileName := None |} ]) s)))).
  { apply sendMessage_text; assumption. }
  assert (Hin : inflight s1 !! issued s = Some (PostChat cid text)).
  { rewrite Hs1. simpl. apply lookup_insert_eq. }
  assert (Hs2 : s2 = setIsTyping false
                       (setMessages (fun prev => prev ++ [assistantMsg (Failure error) now'])
                          (settled (issued s) s1))).
  { apply (resume_send s1 _ _ _ _ Hin). exact I. }
  assert (Hmsgs : messages s2
                  = messages s
                      ++ [ {| id := decimal now; role := user; content := CText text;
                              fileName := None |};
                           {| id := decimal (now' + 1); role := assistant;
                              content := CText fallback; fileName := None |} ]).
  { rewrite Hs2, Hs1. simpl. rewrite <- app_assoc. reflexivity. }
  assert (Hcid2 : conversationId s2 = Some cid).
  { rewrite Hs2, Hs1. exact Hcid. }
  repeat apply conj.
  - exists cid. split; [exact Hcid | exact Hin].
  - rewrite Hs1. unfold hasConversation. simpl. rewrite Hcid. exact Ht.
  - rewrite Hs1. reflexivity.
  - exact Hmsgs.
  - rewrite Hmsgs, length_app. reflexivity.
  - unfold hasConversation. rewrite Hcid2. exact Ht.
  - rewrite Hs2. reflexivity.
  - rewrite Hcid2, Hcid. reflexivity.
  - intros text' now'' Htext'. simpl.
    rewrite (sendMessage_text _ now'' cid); try assumption.
    + reflexivity.
    + rewrite Hs2, Hs1. exact Hfile.
Qed.

Lemma send_failure_recovers_witness :
  messages
    (run [ Mount; Settle 0%nat (Reply (JObject [(lit "id", JString (lit "c1"))])) 5;
           Input (lit "hello"); PressSend 10;
           Settle 1%nat (Failure (lit "TypeError: Failed to fetch")) 20 ] initial)
  = [ {| id := lit "10"; role := user; content := CText (lit "hello"); fileName := None |};
      {| id := lit "21"; role := assistant; content := CText fallback; fileName := None |} ].
Proof.
  pose proof (send_failure_recovers
                (run [ Mount;
                       Settle 0%nat (Reply (JObject [(lit "id", JString (lit "c1"))])) 5;
                       Input (lit "hello") ] initial)
                10 20 (lit "TypeError: Failed to fetch")) as H.
  destruct H as (_ & _ & Hmsgs & _).
  - split; reflexivity.
  - reflexivity.
  - discriminate.
  - exact Hmsgs.
Defined.

(** C10.  A report sent from the chat with a blank draft is shown in the
    transcript as "Analyze this report", and the [message] field that goes
    to the service with the file is "Please analyze this medical report.";
    the two are different strings.  The same holds of an analysis started
    through the handle with an empty message. *)
Theorem default_prompts_differ (s : Session) (f : File) (now : N) :
  hasConversation s = true ->
  (pendingFile s = Some f -> trim (value s) = [] ->
   let s' := step s (PressSend now) in
   (exists cid, conversationId s = Some cid /\
                inflight s' !! issued s = Some (PostAnalyzeReport cid f sentDefaultPrompt)) /\
   messages s'
   = messages s
       ++ [ {| id := decimal now; role := user; content := CText shownDefaultPrompt;
               fileName := Some (name f) |} ]) /\
  (let s' := step s (AnalyzeReport f [] now) in
   (exists cid, conversationId s = Some cid /\
                inflight s' !! issued s = Some (PostAnalyzeReport cid f sentDefaultPrompt)) /\
   messages s'
   = messages s
       ++ [ {| id := decimal now; role := user; content := CText shownDefaultPrompt;
               fileName := Some (name f) |} ]) /\
  shownDefaultPrompt = lit "Analyze this report" /\
  sentDefaultPrompt = lit "Please analyze this medical report." /\
  shownDefaultPrompt <> sentDefaultPrompt.
Proof.
  intros Hconv. destruct (hasConversation_true s Hconv) as (cid & Hcid & Ht).
  repeat apply conj; try reflexivity.
  - intros Hfile Htext s'. subst s'. simpl.
    rewrite (sendMessage_file s now cid f) by assumption.
    rewrite (runAnalysis_ready _ f _ now cid) by assumption.
    rewrite Htext. split; [|reflexivity].
    exists cid. split; [exact Hcid|]. simpl. apply lookup_insert_eq.
  - exists cid. split; [exact Hcid|]. simpl.
    rewrite (runAnalysis_ready s f _ now cid) by assumption.
    simpl. apply lookup_insert_eq.
  - simpl. rewrite (runAnalysis_ready s f _ now cid) by assumption. reflexivity.
  - intros H. vm_compute in H. discriminate H.
Qed.

Lemma default_prompts_differ_witness :
  messages
    (run [ Mount; Settle 0%nat (Reply (JObject [(lit "id", JString (lit "c1"))])) 5;
           PickFile {| name := lit "scan.png"; bytes := 1 |}; Input (lit "  ");
           PressSend 10 ] initial)
  = [ {| id := lit "10"; role := user; content := CText (lit "Analyze this report");
         fileName := Some (lit "scan.png") |} ].
Proof.
  pose proof (default_prompts_differ
                (run [ Mount;
                       Settle 0%nat (Reply (JObject [(lit "id", JString (lit "c1"))])) 5;
                       PickFile {| name := lit "scan.png"; bytes := 1 |};
                       Input (lit "  ") ] initial)
                {| name := lit "scan.png"; bytes := 1 |} 10) as H.
  destruct H as (Hsend & _).
  - reflexivity.
  - destruct Hsend as (_ & Hmsgs).
    + reflexivity.
    + reflexivity.
    + exact Hmsgs.
Defined.

(** X21.  Through the page the prompt is never empty: the text shown and the
    text sent are the same, the page's prompt or, when that is empty, the
    default that is sent; the page's file and prompt are cleared. *)
Lemma handleAnalyze_prompt (h : Home) (s : Session) (f : File) (now : N) cid :
  file h = Some f -> conversationId s = Some cid -> truthy cid = true ->
  let text := or_else (prompt h) sentDefaultPrompt in
  let s' := snd (handleAnalyze now h s) in
  fst (handleAnalyze now h s) = {| file := None; prompt := [] |} /\
  inflight s' !! issued s = Some (PostAnalyzeReport cid f text) /\
  messages s'
  = messages s
      ++ [ {| id := decimal now; role := user; content := CText text;
              fileName := Some (name f) |} ].
Proof.
  intros Hf Hcid Ht text s'. subst s'. unfold handleAnalyze. rewrite Hf. simpl.
  rewrite (runAnalysis_ready s f _ now cid) by assumption.
  assert (Htext : forall d, or_else text d = text).
  { intros d. unfold text, or_else at 1.
    destruct (truthy (or_else (prompt h) sentDefaultPrompt)) eqn:E; [reflexivity|].
    unfold or_else in E.
    destruct (truthy (prompt h)) eqn:E'; [congruence | vm_compute in E; discriminate]. }
  fold text. rewrite !Htext.
  split; [reflexivity|]. split; [|reflexivity]. simpl. apply lookup_insert_eq.
Qed.

(** C1, as amended.  In every execution, when [clearChat] runs while a send
    is awaited, the transcript is emptied, the id and the pending file are
    dropped, a conversation is requested, and the send stays awaited; when
    it then settles, its message is the one entry of the new transcript.
    Whenever it settles, its message is appended to the transcript of that
    moment: nothing compares conversation ids. *)
Theorem reset_keeps_stale_reply
    (events : list Event) (ticket : nat) (r : Request) (o : Outcome) (now : N) :
  let s := run events initial in
  inflight s !! ticket = Some r -> is_send r ->
  let s1 := step s NewChat in
  let s2 := step s1 (Settle ticket o now) in
  messages s1 = [] /\ conversationId s1 = None /\ pendingFile s1 = None /\
  inflight s1 !! issued s = Some (PostConversation title) /\
  inflight s1 !! ticket = Some r /\
  messages s2 = [assistantMsg o now] /\
  inflight s2 !! issued s = Some (PostConversation title) /\
  forall s' : Session,
    inflight s' !! ticket = Some r ->
    messages (step s' (Settle ticket o now)) = messages s' ++ [assistantMsg o now].
Proof.
  intros s Hr Hsend s1 s2.
  pose proof (tickets_issued_reachable events) as Hinv. fold s in Hinv.
  assert (Hkept : inflight s1 !! ticket = Some r).
  { apply clearChat_keeps_inflight; assumption. }
  assert (Hs2 : s2 = setIsTyping false
                       (setMessages (fun prev => prev ++ [assistantMsg o now])
                          (settled ticket s1))).
  { apply (resume_send s1 ticket r o now Hkept Hsend). }
  repeat apply conj; try reflexivity.
  - simpl. apply lookup_insert_eq.
  - exact Hkept.
  - rewrite Hs2. reflexivity.
  - rewrite Hs2. simpl. specialize (Hinv ticket r Hr).
    rewrite lookup_delete_ne by lia. apply lookup_insert_eq.
  - intros s' Hr'. simpl. rewrite (resume_send s' ticket r o now Hr' Hsend). reflexivity.
Qed.

Lemma reset_keeps_stale_reply_witness :
  messages
    (run [ Mount; Settle 0%nat (Reply (JObject [(lit "id", JString (lit "c1"))])) 5;
           Input (lit "hello"); PressSend 10; NewChat;
           Settle 1%nat (Failure (lit "NetworkError")) 20 ] initial)
  = [ {| id := lit "21"; role := assistant; content := CText fallback; fileName := None |} ].
Proof.
  pose proof (reset_keeps_stale_reply
                [ Mount; Settle 0%nat (Reply (JObject [(lit "id", JString (lit "c1"))])) 5;
                  Input (lit "hello"); PressSend 10 ]
                1%nat (PostChat (lit "c1") (lit "hello"))
                (Failure (lit "NetworkError")) 20) as H.
  destruct H as (_ & _ & _ & _ & _ & Hmsgs & _).
  - reflexivity.
  - exact I.
  - exact Hmsgs.
Defined.

(** C1, as stated, fails: the answer to a message of conversation c1 arrives
    after the reset and after conversation c2 was assigned, and it is the
    transcript of c2 that receives it. *)
Lemma stale_reply_counterexample :
  let before :=
    run [ Mount; Settle 0%nat (Reply (JObject [(lit "id", JString (lit "c1"))])) 5;
          Input (lit "hello"); PressSend 10; NewChat;
          Settle 2%nat (Reply (JObject [(lit "id", JString (lit "c2"))])) 15 ] initial in
  let after := step before (Settle 1%nat (Reply (JString (lit "old answer"))) 20) in
  inflight before !! 1%nat = Some (PostChat (lit "c1") (lit "hello")) /\
  conversationId before = Some (lit "c2") /\
  messages before = [] /\
  conversationId after = Some (lit "c2") /\
  messages after
  = [ {| id := lit "21"; role := assistant; content := CText (lit "old answer");
         fileName := None |} ] /\
  messages after <> messages before.
Proof.
  repeat apply conj; try reflexivity.
  intros H. vm_compute in H. discriminate H.
Qed.

(** X22.  Before an id is assigned the page forgets its file and prompt
    although the chat does not take the report: nothing is shown, nothing is
    sent. *)
Lemma handleAnalyze_before_id (h : Home) (s : Session) (f : File) (now : N) :
  file h = Some f -> hasConversation s = false ->
  handleAnalyze now h s = ({| file := None; prompt := [] |}, s).
Proof.
  intros Hf Hconv. unfold handleAnalyze. rewrite Hf. simpl. unfold runAnalysis.
  unfold hasConversation in Hconv.
  destruct (conversationId s) as [cid|]; [rewrite Hconv|]; reflexivity.
Qed.

(** * Further properties *)

(** ** List coercion *)

Section ListCoercion.

Implicit Types (s seg x : jsstring) (c : unit16).

Lemma elem_of_filter_truthy (l : list jsstring) x :
  x ∈ List.filter truthy l <-> x <> [] /\ x ∈ l.
Proof. rewrite filter_truthy, list_elem_of_filter. reflexivity. Qed.

Lemma elem_of_map {A B} (f : A -> B) (l : list A) (y : B) :
  y ∈ map f l <-> exists a, y = f a /\ a ∈ l.
Proof.
  rewrite list_elem_of_In, in_map_iff. split.
  - intros (a & <- & Ha). exists a. split; [reflexivity | apply list_elem_of_In, Ha].
  - intros (a & -> & Ha). exists a. split; [reflexivity | apply list_elem_of_In, Ha].
Qed.

(** What [trimStart], [trim] and [strip_bullet] return is cut out of their
    argument. *)
Lemma trimStart_Forall (P : unit16 -> Prop) s : Forall P s -> Forall P (trimStart s).
Proof.
  destruct (trimStart_spec s) as (pre & Hs & _). intros H.
  rewrite Hs in H. apply Forall_app in H. tauto.
Qed.

Lemma trim_Forall (P : unit16 -> Prop) s : Forall P s -> Forall P (trim s).
Proof.
  destruct (trim_spec s) as (pre & post & Hs & _). intros H.
  rewrite Hs in H. apply Forall_app in H as [_ H]. apply Forall_app in H. tauto.
Qed.

Lemma strip_bullet_Forall (P : unit16 -> Prop) s : Forall P s -> Forall P (strip_bullet s).
Proof.
  destruct s as [|c r]; [trivial|]. simpl. intros H.
  destruct (is_bullet c); [|exact H].
  apply trimStart_Forall. inversion H; assumption.
Qed.

Lemma split_length s : length (split s) = S (length (List.filter is_separator s)).
Proof.
  induction s as [|c r IH]; [reflexivity|]. simpl.
  destruct (is_separator c); simpl; [rewrite IH; reflexivity|].
  destruct (split r) as [|seg segs]; [discriminate | exact IH].
Qed.

(** The characters of the segments are characters of the string. *)
Lemma split_Forall (P : unit16 -> Prop) s : Forall P s -> Forall (Forall P) (split s).
Proof.
  induction 1 as [|c r Hc _ IH]; simpl; [repeat constructor|].
  destruct (is_separator c); [constructor; [constructor | exact IH]|].
  destruct (split r) as [|seg segs]; [repeat constructor; exact Hc|].
  inversion IH; subst. constructor; [constructor; assumption | assumption].
Qed.

Lemma bullet_not_space c : is_bullet c = true -> is_space c = false.
Proof.
  unfold is_bullet. rewrite !orb_true_iff, !N.eqb_eq. intros [[-> | ->] | ->]; reflexivity.
Qed.

Lemma trim_spaces s : spaces s -> trim s = [].
Proof.
  intros H. unfold trim.
  rewrite <- (app_nil_r s), trimStart_spaces by assumption. reflexivity.
Qed.

End ListCoercion.

(** X1.  No entry of a coerced list is empty; an entry that comes from a
    string holds no line feed and no semicolon and has no white space at
    either end. *)
Theorem toList_entries_clean (val : ListField) (x : jsstring) :
  x ∈ toList val ->
  x <> [] /\
  forall s, val = LString s ->
            Forall (fun c => is_separator c = false) x /\
            starts_clean x /\ (forall c, last x = Some c -> is_space c = false).
Proof.
  intros Hx. split.
  - destruct val as [|[|c r]|items]; simpl in Hx;
      try (apply elem_of_nil in Hx as []);
      apply elem_of_filter_truthy in Hx; tauto.
  - intros s ->. destruct s as [|c r]; [apply elem_of_nil in Hx as []|].
    simpl in Hx. apply elem_of_filter_truthy in Hx as [_ Hx].
    apply elem_of_map in Hx as (seg & -> & Hseg).
    destruct (split_spec (c :: r)) as (_ & _ & _ & _ & Hfree).
    rewrite Forall_forall in Hfree. specialize (Hfree seg Hseg).
    destruct (trim_spec (strip_bullet seg)) as (_ & _ & _ & _ & _ & Hhead & Hlast).
    split; [|split; assumption].
    apply trim_Forall, strip_bullet_Forall, Hfree.
Qed.

Lemma toList_entries_clean_witness :
  lit "high LDL" <> [] /\
  Forall (fun c => is_separator c = false) (lit "high LDL").
Proof.
  destruct (toList_entries_clean
              (LString (lit "- low iron;" ++ [10] ++ lit "*high LDL  "))
              (lit "high LDL")) as (Hne & Hs).
  - apply list_elem_of_In. vm_compute. right. left. reflexivity.
  - split; [exact Hne|]. destruct (Hs _ eq_refl) as (Hfree & _). exact Hfree.
Defined.

(** X2.  Coercing the result of a coercion changes nothing. *)
Theorem toList_idempotent (val : ListField) :
  toList (LArray (toList val)) = toList val.
Proof.
  assert (Hfix : forall l : list jsstring,
             List.filter truthy (List.filter truthy l) = List.filter truthy l).
  { induction l as [|x l IH]; [reflexivity|]. simpl.
    destruct (truthy x) eqn:Hx; [simpl; rewrite Hx, IH; reflexivity | exact IH]. }
  destruct val as [|[|c r]|items]; simpl; try reflexivity; apply Hfix.
Qed.

(** X3.  A string gives at most one entry more than it has line feeds and
    semicolons, and a list gives at most as many entries as it has. *)
Theorem toList_length_bound :
  (forall s, (length (toList (LString s)) <= S (length (List.filter is_separator s)))%nat) /\
  (forall items, (length (toList (LArray items)) <= length items)%nat).
Proof.
  assert (Hle : forall l : list jsstring, (length (List.filter truthy l) <= length l)%nat).
  { intros l. rewrite filter_truthy. apply length_filter. }
  split.
  - intros [|c r]; [simpl; lia|].
    change (toList (LString (c :: r)))
      with (List.filter truthy (map (fun seg => trim (strip_bullet seg)) (split (c :: r)))).
    etransitivity; [apply Hle|]. rewrite length_map, split_length. reflexivity.
  - intros items. apply Hle.
Qed.

(** X4.  A string made of white space, line feeds and semicolons only gives
    the empty list. *)
Theorem toList_blank (s : jsstring) :
  Forall (fun c => is_space c = true \/ is_separator c = true) s ->
  toList (LString s) = [].
Proof.
  intros Hs. destruct s as [|c r]; [reflexivity|].
  change (toList (LString (c :: r)))
    with (List.filter truthy (map (fun seg => trim (strip_bullet seg)) (split (c :: r)))).
  destruct (split_spec (c :: r)) as (_ & _ & _ & _ & Hfree).
  apply (split_Forall _ _) in Hs.
  induction (split (c :: r)) as [|seg segs IH]; [reflexivity|].
  inversion Hs as [|? ? Hseg Hsegs]; subst. inversion Hfree as [|? ? Fseg Fsegs]; subst.
  assert (Hsp : spaces seg).
  { clear - Hseg Fseg. induction seg as [|a seg IH]; [constructor|].
    inversion Hseg as [|? ? Ha Hrest]; subst. inversion Fseg as [|? ? Fa Frest]; subst.
    constructor; [destruct Ha; congruence | apply IH; assumption]. }
  simpl. rewrite strip_bullet_other, (trim_spaces seg Hsp).
  - simpl. apply IH; assumption.
  - intros a Ha. destruct seg as [|b seg']; [discriminate|]. injection Ha as ->.
    inversion Hsp; subst. destruct (is_bullet a) eqn:Hb; [|reflexivity].
    apply bullet_not_space in Hb. congruence.
Qed.

Lemma toList_blank_witness :
  toList (LString (lit " ; " ++ [10; 9] ++ lit ";;")) = [].
Proof. apply toList_blank. repeat constructor; vm_compute; tauto. Defined.

(** ** The normaliser, further *)

Lemma isStructuredReport_is_object (v : JSON) :
  isStructuredReport (Some v) = true ->
  exists fields, v = JObject fields /\
                 exists k, k ∈ report_keys /\ is_Some (lookup_field k fields).
Proof.
  destruct v as [| | | | items | fields]; try discriminate.
  intros H. exists fields. split; [reflexivity|].
  apply isStructuredReport_object, H.
Qed.

Lemma first_report_at (before after : list JSON) (v : JSON) :
  Forall (fun x => isStructuredReport (Some x) = false) before ->
  isStructuredReport (Some v) = true ->
  first_report (before ++ v :: after) = Some v.
Proof.
  intros Hbefore Hv.
  induction Hbefore as [|x before Hx _ IH]; cbn [first_report app].
  - rewrite Hv. reflexivity.
  - rewrite Hx. exact IH.
Qed.

(** X5.  A report that [extractContent] returns is an object holding one of
    the three keys, and it is the input itself or one of the input's own
    values, never something deeper. *)
Theorem extractContent_report_origin (data : unknown) (r : JSON) :
  extractContent data = CReport r ->
  (exists fields, r = JObject fields /\
                  exists k, k ∈ report_keys /\ is_Some (lookup_field k fields)) /\
  (data = Some r \/ exists d, data = Some d /\ r ∈ Object_values d).
Proof.
  intros H.
  destruct (extractContent_total data) as [(s & Hs) | (r' & Hr' & Hrep)]; [congruence|].
  assert (r' = r) as -> by congruence. clear Hr'.
  split; [apply isStructuredReport_is_object, Hrep|].
  destruct data as [[| b | n | s | items | fields]|]; try discriminate H.
  - right. exists (JArray items). split; [reflexivity|].
    cbn [extractContent] in H. change (top_field (JArray items)) with (@None JSON) in H.
    change (isStructuredReport (Some (JArray items))) with false in H.
    cbn iota in H. destruct (first_report _) as [v|] eqn:Hv; [|discriminate H].
    injection H as <-. apply (first_report_Some _ _ Hv).
  - cbn [extractContent] in H.
    destruct (top_field (JObject fields)) as [[]|];
      try discriminate H;
      (destruct (isStructuredReport (Some (JObject fields)));
       [ left; congruence
       | right; exists (JObject fields); split; [reflexivity|];
         destruct (first_report _) as [v|] eqn:Hv; [|discriminate H];
         injection H as <-; apply (first_report_Some _ _ Hv) ]).
Qed.

Lemma extractContent_report_origin_witness :
  JObject [(lit "urgency", JString (lit "low"))]
  ∈ Object_values
      (JObject [ (lit "status", JBool true);
                 (lit "result", JObject [(lit "urgency", JString (lit "low"))]) ]).
Proof.
  destruct (extractContent_report_origin
              (Some (JObject [ (lit "status", JBool true);
                               (lit "result", JObject [(lit "urgency", JString (lit "low"))]) ]))
              (JObject [(lit "urgency", JString (lit "low"))])) as (_ & [H | (d & Hd & Hin)]).
  - reflexivity.
  - discriminate H.
  - injection Hd as <-. exact Hin.
Defined.

(** X6.  Of the values of an object or an array that is neither a text nor
    a report itself, the first that is a report is returned; the values
    after it are not looked at. *)
Theorem extractContent_first_nested (d : JSON) (before after : list JSON) (v : JSON) :
  (exists fields, d = JObject fields) \/ (exists items, d = JArray items) ->
  (forall s, top_field d <> Some (JString s)) ->
  isStructuredReport (Some d) = false ->
  Object_values d = before ++ v :: after ->
  Forall (fun x => isStructuredReport (Some x) = false) before ->
  isStructuredReport (Some v) = true ->
  extractContent (Some d) = CReport v.
Proof.
  intros Hd Htop Hself Hvalues Hbefore Hv.
  assert (Hfirst : first_report (Object_values d) = Some v).
  { rewrite Hvalues. apply first_report_at; assumption. }
  destruct Hd as [(fields & ->) | (items & ->)]; cbn [extractContent].
  - destruct (top_field (JObject fields)) as [[]|] eqn:E;
      try (rewrite Hself, Hfirst; reflexivity).
    exfalso. eapply Htop. reflexivity.
  - change (top_field (JArray items)) with (@None JSON).
    cbn iota. rewrite Hself, Hfirst. reflexivity.
Qed.

Lemma extractContent_first_nested_witness :
  extractContent
    (Some (JArray [ JString (lit "note");
                    JObject [(lit "summary", JString (lit "first"))];
                    JObject [(lit "summary", JString (lit "second"))] ]))
  = CReport (JObject [(lit "summary", JString (lit "first"))]).
Proof.
  apply (extractContent_first_nested _ [JString (lit "note")]
           [JObject [(lit "summary", JString (lit "second"))]]).
  - right. eexists. reflexivity.
  - discriminate.
  - reflexivity.
  - reflexivity.
  - repeat constructor.
  - reflexivity.
Defined.

(** ** List coercion on the values of a report *)

Lemma filter_Boolean_strings (items : list jsstring) :
  List.filter (fun v => Boolean (Some v)) (map JString items)
  = map JString (List.filter truthy items).
Proof.
  induction items as [|x items IH]; [reflexivity|]. simpl.
  destruct (truthy x); simpl; [f_equal|]; exact IH.
Qed.

Lemma strings_of_map (items : list JSON) (l : list jsstring) :
  strings_of items = Some l -> items = map JString l.
Proof.
  revert l. induction items as [|x items IH]; simpl; intros l H.
  - injection H as <-. reflexivity.
  - destruct x; try discriminate H.
    destruct (strings_of items) as [l'|]; [|discriminate H].
    simpl in H. injection H as <-. simpl. rewrite (IH l' eq_refl). reflexivity.
Qed.

(** On a field that has its declared type the two readings of [toList] agree. *)
Lemma toList_dyn_typed (k : jsstring) (report : JSON) (field : ListField) :
  list_field k report = Some field ->
  toList_dyn (get k report) = Some (map JString (toList field)).
Proof.
  unfold list_field. destruct (get k report) as [[| b | n | s | items | fields]|];
    try discriminate.
  - intros [= <-]. destruct s; reflexivity.
  - destruct (strings_of items) as [l|] eqn:Hl; [|discriminate].
    intros [= <-]. apply strings_of_map in Hl as ->.
    unfold toList_dyn. cbn [Boolean negb]. rewrite filter_Boolean_strings. reflexivity.
  - intros [= <-]. reflexivity.
Qed.

(** X7.  [toList] throws exactly on [true], on a number that is not zero
    and on an object: the truthy values that are neither a string nor an
    array.  Every other value gives a list. *)
Theorem toList_dyn_throws (val : unknown) :
  toList_dyn val = None <->
  val = Some (JBool true) \/
  (exists n, val = Some (JNumber n) /\ n <> Finite (lit "0")) \/
  (exists fields, val = Some (JObject fields)).
Proof.
  split.
  - destruct val as [[| b | n | s | items | fields]|]; unfold toList_dyn; simpl;
      try discriminate.
    + destruct b; [intros _; left; reflexivity | discriminate].
    + destruct n as [t | neg]; simpl.
      * destruct (bool_decide (t = lit "0")) eqn:E; [discriminate|].
        apply bool_decide_eq_false in E. intros _. right. left.
        exists (Finite t). split; [reflexivity | congruence].
      * intros _. right. left. exists (Infinite neg). split; [reflexivity | discriminate].
    + destruct (truthy s); discriminate.
    + intros _. right. right. exists fields. reflexivity.
  - intros [-> | [(n & -> & Hn) | (fields & ->)]]; try reflexivity.
    destruct n as [t | neg]; [|reflexivity].
    unfold toList_dyn. simpl.
    rewrite bool_decide_eq_false_2 by congruence. reflexivity.
Qed.

(** ** The session, further *)

Section Executions.

Implicit Types (s : Session) (r : Request) (o : Outcome) (e : Event).

Lemma run_snoc events e s : run (events ++ [e]) s = step (run events s) e.
Proof. unfold run. apply foldl_snoc. Qed.

Lemma run_cons events e s : run (e :: events) s = run events (step s e).
Proof. reflexivity. Qed.

(** A property that every transition keeps holds after every execution. *)
Lemma run_invariant (I : Session -> Prop) :
  (forall s e, I s -> I (step s e)) ->
  forall events s, I s -> I (run events s).
Proof.
  intros Hstep events. induction events as [|e events IH]; intros s Hs; [exact Hs|].
  rewrite run_cons. apply IH, Hstep, Hs.
Qed.

Lemma or_else_nonempty (a b : jsstring) : b <> [] -> or_else a b <> [].
Proof.
  intros Hb. unfold or_else. destruct (truthy a) eqn:Ha; [|exact Hb].
  apply truthy_nonempty, Ha.
Qed.

Lemma trim_trim (t : jsstring) : trim (trim t) = trim t.
Proof.
  destruct (trim_spec t) as (_ & _ & _ & _ & _ & Hhead & Hlast).
  unfold trim at 1. rewrite trimStart_id by exact Hhead.
  destruct (trimEnd_spec (trim t)) as (post & Hpost & Hsp & _).
  destruct post as [|c post]; [rewrite app_nil_r in Hpost; congruence|].
  exfalso.
  destruct (last (c :: post)) as [c'|] eqn:Hc'; [|apply last_None in Hc'; discriminate].
  assert (Hsp' : is_space c' = true).
  { apply last_Some_elem_of in Hc'. unfold spaces in Hsp.
    rewrite Forall_forall in Hsp. exact (Hsp c' Hc'). }
  assert (Hl : last (trim t) = Some c').
  { rewrite Hpost, last_app, Hc'. reflexivity. }
  rewrite (Hlast c' Hl) in Hsp'. discriminate.
Qed.

(** A report analysis that is taken. *)
Lemma runAnalysis_effect s f prompt now e :
  stamp e = Some now -> e <> NewChat ->
  effect s e (runAnalysis f prompt now s).
Proof.
  intros He Hne. unfold runAnalysis.
  destruct (conversationId s) as [cid|] eqn:Hcid;
    [|apply effect_none; auto].
  destruct (truthy cid) eqn:Ht; [|apply effect_none; auto].
  apply (effect_send s e now (PostAnalyzeReport cid f (or_else prompt sentDefaultPrompt))
           {| id := decimal now; role := user;
              content := CText (or_else prompt shownDefaultPrompt);
              fileName := Some (name f) |});
    first [ reflexivity | assumption | exact I | idtac ].
  - split; [apply truthy_nonempty, Ht | apply or_else_nonempty; discriminate].
  - exists (or_else prompt shownDefaultPrompt).
    split; [reflexivity | apply or_else_nonempty; discriminate].
Qed.

(** Every transition has one of the six effects. *)
Lemma step_effect s e : effect s e (step s e).
Proof.
  destruct e as [| text | f | | now | f message now | | k o now]; simpl.
  - apply effect_ask; reflexivity.
  - apply effect_none; auto; discriminate.
  - apply effect_none; auto; discriminate.
  - apply effect_none; auto; discriminate.
  - unfold sendMessage.
    destruct (negb (truthy (trim (value s))) && _) eqn:Hguard;
      [apply effect_none; auto; discriminate|].
    destruct (conversationId s) as [cid|] eqn:Hcid; [|apply effect_none; auto; discriminate].
    destruct (truthy cid) eqn:Ht; simpl; [|apply effect_none; auto; discriminate].
    destruct (pendingFile s) as [f|] eqn:Hf.
    + pose proof (runAnalysis_effect (setValue [] (setPendingFile None s))
                    f (trim (value s)) now (PressSend now) eq_refl) as H.
      assert (Hne : PressSend now <> NewChat) by discriminate.
      specialize (H Hne).
      inversion H; subst;
        [ apply effect_none; auto
        | eapply effect_send; eauto ].
    + rewrite bool_decide_eq_false_2 in Hguard by (intros [? ?]; discriminate).
      rewrite andb_true_r in Hguard. apply negb_false_iff in Hguard.
      apply (effect_send s _ now (PostChat cid (trim (value s)))
               {| id := decimal now; role := user; content := CText (trim (value s));
                  fileName := None |});
        first [ reflexivity | discriminate | exact I | idtac ].
      * split; [apply truthy_nonempty, Ht|].
        split; [apply truthy_nonempty, Hguard | apply trim_trim].
      * exists (trim (value s)). split; [reflexivity | apply truthy_nonempty, Hguard].
  - apply runAnalysis_effect; [reflexivity | discriminate].
  - apply effect_reset; reflexivity.
  - unfold resume. destruct (inflight s !! k) as [r|] eqn:Hr;
      [|apply effect_none; auto; discriminate].
    destruct r as [t | cid message | cid f message].
    + apply (effect_created s k t); try assumption;
        (destruct o as [data|]; [destruct (createConversation_id data)|]); reflexivity.
    + apply (effect_reply s k (PostChat cid message));
        first [ assumption | reflexivity | exact I ].
    + apply (effect_reply s k (PostAnalyzeReport cid f message));
        first [ assumption | reflexivity | exact I ].
Qed.

End Executions.

Section Conversation.

Implicit Types (s : Session) (r : Request) (o : Outcome) (e : Event).

Lemma sendMessage_no_conversation s now :
  hasConversation s = false -> sendMessage now s = s.
Proof.
  unfold hasConversation, sendMessage. intros H.
  destruct (_ && _); [reflexivity|].
  destruct (conversationId s) as [cid|]; [rewrite H|]; reflexivity.
Qed.

Lemma runAnalysis_no_conversation s f prompt now :
  hasConversation s = false -> runAnalysis f prompt now s = s.
Proof.
  unfold hasConversation, runAnalysis. intros H.
  destruct (conversationId s) as [cid|]; [rewrite H|]; reflexivity.
Qed.

Lemma resume_created s k t data c now :
  inflight s !! k = Some (PostConversation t) ->
  createConversation_id data = Some c ->
  resume k (Reply data) now s = setConversationId (Some c) (settled k s).
Proof. intros Hk Hc. unfold resume. rewrite Hk, Hc. reflexivity. Qed.

End Conversation.

(** X8.  A body that is not null and has no values at all, such as the
    empty object, gives the id the text undefined, and the session counts
    as connected with it. *)
Theorem createConversation_empty_reply
    (data : JSON) (s : Session) (k : nat) (t : jsstring) (now : N) :
  data <> JNull -> Object_values data = [] ->
  inflight s !! k = Some (PostConversation t) ->
  createConversation_id data = Some (lit "undefined") /\
  conversationId (step s (Settle k (Reply data) now)) = Some (lit "undefined") /\
  hasConversation (step s (Settle k (Reply data) now)) = true.
Proof.
  intros Hnull Hvalues Hk.
  assert (Hid : createConversation_id data = Some (lit "undefined")).
  { destruct data as [| b | n | str | items | fields]; simpl in Hvalues;
      [congruence | reflexivity | reflexivity | | |].
    - destruct str; [reflexivity | discriminate].
    - subst items. reflexivity.
    - destruct fields; [reflexivity | discriminate]. }
  split; [exact Hid|]. simpl. rewrite (resume_created s k t data _ now Hk Hid).
  split; reflexivity.
Qed.

Lemma createConversation_empty_reply_witness :
  conversationId (run [Mount; Settle 0%nat (Reply (JObject [])) 5] initial)
  = Some (lit "undefined").
Proof.
  destruct (createConversation_empty_reply (JObject []) (step initial Mount) 0 title 5)
    as (_ & H & _).
  - discriminate.
  - reflexivity.
  - reflexivity.
  - exact H.
Defined.

(** X9.  When the request of the mount settles without a usable id, nothing
    is asked again: until the reset, whatever is typed, picked, sent or
    settled, the session has no conversation, the transcript stays empty
    and nothing is awaited. *)
Theorem create_without_id_stuck (o : Outcome) (now : N) (events : list Event) :
  without_id o -> Forall asks_nothing events ->
  let s := run events (run [Mount; Settle 0%nat o now] initial) in
  hasConversation s = false /\ messages s = [] /\ inflight s = ∅ /\ isTyping s = false.
Proof.
  intros Ho Hevents.
  set (I := fun s : Session =>
              hasConversation s = false /\ messages s = [] /\
              inflight s = ∅ /\ isTyping s = false).
  assert (H0 : I (run [Mount; Settle 0%nat o now] initial)).
  { unfold I, run. simpl. unfold resume. simpl.
    rewrite lookup_insert_eq.
    assert (Hempty : delete 0%nat (<[0%nat := PostConversation title]> (∅ : gmap nat Request)) = ∅).
    { rewrite delete_insert_eq. apply delete_empty. }
    destruct o as [data | err]; simpl in Ho.
    - destruct Ho as [-> | ->]; simpl; rewrite Hempty; repeat split.
    - simpl. rewrite Hempty. repeat split. }
  change (I (run events (run [Mount; Settle 0%nat o now] initial))).
  revert H0. generalize (run [Mount; Settle 0%nat o now] initial) as s0.
  induction Hevents as [|e events He _ IH]; intros s0 H0; [exact H0|].
  rewrite run_cons. apply IH. clear IH.
  destruct H0 as (Hconv & Hmsgs & Hin & Htyping).
  destruct e as [| text | f | | now' | f message now' | | k o' now']; simpl in He;
    try destruct He; simpl.
  - unfold I. simpl. repeat split; assumption.
  - unfold I. simpl. repeat split; assumption.
  - unfold I. simpl. repeat split; assumption.
  - rewrite sendMessage_no_conversation by assumption. repeat split; assumption.
  - rewrite runAnalysis_no_conversation by assumption. repeat split; assumption.
  - unfold resume. rewrite Hin, lookup_empty. repeat split; assumption.
Qed.

Lemma create_without_id_stuck_witness :
  messages
    (run [ Mount; Settle 0%nat (Failure (lit "TypeError: Failed to fetch")) 5;
           Input (lit "hello"); PressSend 10;
           AnalyzeReport {| name := lit "scan.png"; bytes := 1 |} (lit "look") 12 ]
       initial) = [].
Proof.
  destruct (create_without_id_stuck (Failure (lit "TypeError: Failed to fetch")) 5
              [ Input (lit "hello"); PressSend 10;
                AnalyzeReport {| name := lit "scan.png"; bytes := 1 |} (lit "look") 12 ])
    as (_ & H & _).
  - exact I.
  - repeat constructor.
  - exact H.
Defined.

(** X10.  Of two creation requests that are awaited, the one that settles
    last gives the session its id, whichever was made first. *)
Theorem create_last_reply_wins
    (s : Session) (k1 k2 : nat) (t1 t2 : jsstring) (d1 d2 : JSON) (c1 c2 : jsstring)
    (n1 n2 : N) :
  k1 <> k2 ->
  inflight s !! k1 = Some (PostConversation t1) ->
  inflight s !! k2 = Some (PostConversation t2) ->
  createConversation_id d1 = Some c1 -> createConversation_id d2 = Some c2 ->
  conversationId (run [Settle k2 (Reply d2) n2; Settle k1 (Reply d1) n1] s) = Some c1.
Proof.
  intros Hne H1 H2 Hc1 Hc2. unfold run. simpl.
  rewrite (resume_created s k2 t2 d2 c2 n2 H2 Hc2).
  rewrite (resume_created _ k1 t1 d1 c1 n1); [reflexivity | | exact Hc1].
  simpl. rewrite lookup_delete_ne by congruence. exact H1.
Qed.

Lemma create_last_reply_wins_witness :
  conversationId
    (run [ Mount; NewChat;
           Settle 1%nat (Reply (JObject [(lit "id", JString (lit "second"))])) 7;
           Settle 0%nat (Reply (JObject [(lit "id", JString (lit "first"))])) 9 ] initial)
  = Some (lit "first").
Proof.
  apply (create_last_reply_wins (run [Mount; NewChat] initial) 0 1 title title
           (JObject [(lit "id", JString (lit "first"))])
           (JObject [(lit "id", JString (lit "second"))]) (lit "first") (lit "second") 9 7).
  - discriminate.
  - reflexivity.
  - reflexivity.
  - reflexivity.
  - reflexivity.
Defined.

(** X11.  The condition that enables the send button is the condition under
    which [sendMessage] does anything: when it is false the session is left
    as it is, and when it is true the transcript gets one message, one
    request is made, the draft and the pending file are cleared and the
    indicator is shown.  The Enter key does the same, unless Shift is held. *)
Theorem canSend_decides_send (s : Session) (now : N) :
  (canSend s = false <-> step s (PressSend now) = s) /\
  (canSend s = true ->
   let s' := step s (PressSend now) in
   length (messages s') = S (length (messages s)) /\ issued s' = S (issued s) /\
   value s' = [] /\ pendingFile s' = None /\ isTyping s' = true /\
   conversationId s' = conversationId s) /\
  (forall key shiftKey,
      handleKeyDown key shiftKey now s = s <->
      key <> lit "Enter" \/ shiftKey = true \/ canSend s = false).
Proof.
  assert (Hacc : canSend s = true ->
                 length (messages (sendMessage now s)) = S (length (messages s)) /\
                 issued (sendMessage now s) = S (issued s) /\
                 value (sendMessage now s) = [] /\ pendingFile (sendMessage now s) = None /\
                 isTyping (sendMessage now s) = true /\
                 conversationId (sendMessage now s) = conversationId s).
  { unfold canSend. intros H. apply andb_true_iff in H as [Hdraft Hconv].
    destruct (hasConversation_true s Hconv) as (cid & Hcid & Ht).
    destruct (pendingFile s) as [f|] eqn:Hf.
    - rewrite (sendMessage_file s now cid f) by assumption.
      rewrite (runAnalysis_ready _ f _ now cid) by assumption.
      simpl. rewrite length_app. simpl. repeat split; try lia.
    - rewrite bool_decide_eq_false_2 in Hdraft by (intros [? ?]; discriminate).
      rewrite orb_false_r in Hdraft.
      rewrite (sendMessage_text s now cid) by first [assumption | apply truthy_nonempty; assumption].
      simpl. rewrite length_app. simpl. repeat split; try lia. exact Hf. }
  assert (Hrej : canSend s = false -> sendMessage now s = s).
  { unfold canSend. intros H. apply andb_false_iff in H as [H | H].
    - apply orb_false_iff in H as [H1 H2]. unfold sendMessage. rewrite H1, H2. reflexivity.
    - apply sendMessage_no_conversation, H. }
  assert (Hiff : canSend s = false <-> sendMessage now s = s).
  { split; [exact Hrej|]. intros Heq.
    destruct (canSend s) eqn:Hc; [|reflexivity].
    destruct (Hacc eq_refl) as (_ & Hissued & _). rewrite Heq in Hissued. lia. }
  split; [exact Hiff|]. split; [exact Hacc|].
  intros key shiftKey. unfold handleKeyDown.
  destruct (bool_decide (key = lit "Enter")) eqn:Hkey; simpl.
  - apply bool_decide_eq_true in Hkey. destruct shiftKey; simpl.
    + split; [intros _; right; left; reflexivity | reflexivity].
    + rewrite <- Hiff. split; [tauto|]. intros [H | [H | H]]; [contradiction | discriminate | exact H].
  - apply bool_decide_eq_false in Hkey. split; [intros _; left; exact Hkey | reflexivity].
Qed.

Lemma canSend_decides_send_witness :
  length (messages
            (run [ Mount; Settle 0%nat (Reply (JObject [(lit "id", JString (lit "c1"))])) 5;
                   Input (lit " hi "); PressSend 10 ] initial)) = 1%nat.
Proof.
  destruct (canSend_decides_send
              (run [ Mount; Settle 0%nat (Reply (JObject [(lit "id", JString (lit "c1"))])) 5;
                     Input (lit " hi ") ] initial) 10) as (_ & H & _).
  destruct H as (Hlen & _).
  - reflexivity.
  - exact Hlen.
Defined.

(** X12.  Nothing stops a second send while a first is awaited: it is
    taken, and when the first settles the indicator is cleared although the
    second is still awaited. *)
Theorem overlapping_sends
    (events : list Event) (k : nat) (r : Request) (o : Outcome) (now now' : N) :
  let s := run events initial in
  inflight s !! k = Some r -> is_send r -> canSend s = true ->
  let s1 := step s (PressSend now) in
  let s2 := step s1 (Settle k o now') in
  inflight s1 !! k = Some r /\
  (exists r', is_send r' /\ inflight s1 !! issued s = Some r' /\
              inflight s2 !! issued s = Some r') /\
  isTyping s2 = false.
Proof.
  intros s Hk Hsend Hcan s1 s2.
  pose proof (tickets_issued_reachable events k r Hk) as Hlt. fold s in Hlt.
  pose proof (step_effect s (PressSend now)) as Heff. fold s1 in Heff.
  assert (Hissued : issued s1 = S (issued s)).
  { apply andb_true_iff in Hcan as [Hdraft Hconv].
    destruct (hasConversation_true s Hconv) as (cid & Hcid & Ht).
    subst s1. simpl. destruct (pendingFile s) as [f|] eqn:Hf.
    - rewrite (sendMessage_file s now cid f) by assumption.
      rewrite (runAnalysis_ready _ f _ now cid) by assumption. reflexivity.
    - rewrite bool_decide_eq_false_2 in Hdraft by (intros [? ?]; discriminate).
      rewrite orb_false_r in Hdraft.
      rewrite (sendMessage_text s now cid) by first [assumption | apply truthy_nonempty; assumption].
      reflexivity. }
  inversion Heff as
      [ ? ? _ _ _ _ Hi _
      | ? now0 r' m ? _ _ Hr' _ _ _ _ _ _ _ Hin Hi
      | | | | ]; subst; try lia.
  assert (Hk1 : inflight s1 !! k = Some r).
  { rewrite Hin, lookup_insert_ne by lia. exact Hk. }
  assert (Hs2 : s2 = setIsTyping false
                       (setMessages (fun prev => prev ++ [assistantMsg o now'])
                          (settled k s1))).
  { apply (resume_send s1 k r o now' Hk1 Hsend). }
  split; [exact Hk1|]. split; [|rewrite Hs2; reflexivity].
  exists r'. split; [exact Hr'|]. split.
  - rewrite Hin. apply lookup_insert_eq.
  - rewrite Hs2. simpl. rewrite lookup_delete_ne by lia. rewrite Hin. apply lookup_insert_eq.
Qed.

Lemma overlapping_sends_witness :
  isTyping
    (run [ Mount; Settle 0%nat (Reply (JObject [(lit "id", JString (lit "c1"))])) 5;
           Input (lit "one"); PressSend 10; Input (lit "two"); PressSend 12;
           Settle 1%nat (Reply (JString (lit "first answer"))) 20 ] initial) = false.
Proof.
  destruct (overlapping_sends
              [ Mount; Settle 0%nat (Reply (JObject [(lit "id", JString (lit "c1"))])) 5;
                Input (lit "one"); PressSend 10; Input (lit "two") ]
              1 (PostChat (lit "c1") (lit "one")) (Reply (JString (lit "first answer"))) 12 20)
    as (_ & _ & H).
  - reflexivity.
  - exact I.
  - reflexivity.
  - exact H.
Defined.

(** ** Invariants of the executions *)

Section Invariants.

Implicit Types (s : Session) (r : Request) (o : Outcome) (e : Event) (m : Message).

Lemma run_reachable (I : Session -> Prop) :
  I initial -> (forall s e, tickets_issued s -> I s -> I (step s e)) ->
  forall events, I (run events initial).
Proof.
  intros H0 Hstep events.
  assert (H : tickets_issued (run events initial) /\ I (run events initial)).
  { apply (run_invariant (fun s => tickets_issued s /\ I s)).
    - intros s e [Ht Hi]. split; [apply tickets_issued_step, Ht | apply Hstep; assumption].
    - split; [|exact H0]. intros k r Hk. simpl in Hk. rewrite lookup_empty in Hk. discriminate. }
  apply H.
Qed.

Lemma next_ticket_free s : tickets_issued s -> inflight s !! issued s = None.
Proof.
  intros Ht. destruct (inflight s !! issued s) as [r|] eqn:E; [|reflexivity].
  apply Ht in E. lia.
Qed.

Lemma of_role_snoc ro l m :
  of_role ro (l ++ [m]) = of_role ro l ++ (if decide (role m = ro) then [m] else []).
Proof.
  unfold of_role. rewrite filter_app. reflexivity.
Qed.

Lemma awaited_sends_insert_send s r :
  tickets_issued s -> is_send r ->
  size (filter (fun kr : nat * Request => is_send kr.2) (<[issued s := r]> (inflight s)))
  = S (size (awaited_sends s)).
Proof.
  intros Ht Hr. rewrite map_filter_insert_True by exact Hr.
  apply map_size_insert_None. apply map_lookup_filter_None_2. left.
  apply next_ticket_free, Ht.
Qed.

Lemma awaited_sends_insert_other s t :
  tickets_issued s ->
  filter (fun kr : nat * Request => is_send kr.2)
    (<[issued s := PostConversation t]> (inflight s))
  = awaited_sends s.
Proof.
  intros Ht. apply map_filter_insert_not'; [simpl; tauto|].
  intros y Hy. rewrite (next_ticket_free s Ht) in Hy. discriminate.
Qed.

Lemma awaited_sends_delete_send s k r :
  inflight s !! k = Some r -> is_send r ->
  S (size (filter (fun kr : nat * Request => is_send kr.2) (delete k (inflight s))))
  = size (awaited_sends s).
Proof.
  intros Hk Hr. rewrite map_filter_delete.
  assert (Hin : awaited_sends s !! k = Some r).
  { apply map_lookup_filter_Some_2; assumption. }
  rewrite map_size_delete_Some by (eexists; exact Hin).
  assert (size (awaited_sends s) <> 0%nat).
  { apply map_size_ne_0_lookup. exists k. eexists. exact Hin. }
  unfold awaited_sends in *. lia.
Qed.

Lemma awaited_sends_delete_other s k t :
  inflight s !! k = Some (PostConversation t) ->
  filter (fun kr : nat * Request => is_send kr.2) (delete k (inflight s))
  = awaited_sends s.
Proof.
  intros Hk. apply map_filter_delete_not. intros y Hy.
  rewrite Hk in Hy. injection Hy as <-. simpl. tauto.
Qed.

Lemma lit_inj (a b : string) : lit a = lit b -> a = b.
Proof.
  unfold lit. intros H.
  rewrite <- (string_of_list_ascii_of_string a), <- (string_of_list_ascii_of_string b).
  f_equal. revert H.
  generalize (list_ascii_of_string a) (list_ascii_of_string b).
  induction l as [|x l IH]; intros [|y l']; simpl; try discriminate; [reflexivity|].
  intros H. injection H as Hxy Hl. f_equal; [|apply IH, Hl].
  rewrite <- (ascii_N_embedding x), <- (ascii_N_embedding y), Hxy. reflexivity.
Qed.

Lemma decimal_inj (a b : N) : decimal a = decimal b -> a = b.
Proof.
  unfold decimal. intros H. apply lit_inj in H.
  apply DecimalN.Unsigned.to_uint_inj.
  pose proof (NilEmpty.usu (N.to_uint a)) as Ha.
  rewrite H, NilEmpty.usu in Ha. congruence.
Qed.

End Invariants.

(** X13.  In every execution the indicator is shown only while a send is
    awaited. *)
Theorem typing_means_awaited (events : list Event) :
  isTyping (run events initial) = true ->
  exists k r, inflight (run events initial) !! k = Some r /\ is_send r.
Proof.
  apply (run_reachable
           (fun s => isTyping s = true -> exists k r, inflight s !! k = Some r /\ is_send r)).
  - discriminate.
  - intros s e Ht IH.
    destruct (step_effect s e) as
      [ e s' Hm Hty Hc Hin Hi _
      | e now r m s' _ _ Hr _ _ _ _ _ Hty _ Hin Hi
      | k r o now s' Hk Hr _ Hty _ Hin Hi
      | k t o now s' Hk _ Hty Hin Hi
      | s' _ Hty _ Hin Hi
      | s' _ Hty _ _ Hin Hi ].
    + rewrite Hty, Hin. exact IH.
    + intros _. exists (issued s), r. rewrite Hin, lookup_insert_eq. tauto.
    + rewrite Hty. discriminate.
    + rewrite Hty, Hin. intros H. destruct (IH H) as (k0 & r0 & Hk0 & Hr0).
      exists k0, r0. split; [|exact Hr0].
      rewrite lookup_delete_ne; [exact Hk0|]. intros ->. rewrite Hk in Hk0.
      injection Hk0 as <-. destruct Hr0.
    + rewrite Hty, Hin. intros H. destruct (IH H) as (k0 & r0 & Hk0 & Hr0).
      exists k0, r0. split; [|exact Hr0].
      rewrite lookup_insert_ne; [exact Hk0|]. specialize (Ht k0 r0 Hk0). lia.
    + rewrite Hty, Hin. intros H. destruct (IH H) as (k0 & r0 & Hk0 & Hr0).
      exists k0, r0. split; [|exact Hr0].
      rewrite lookup_insert_ne; [exact Hk0|]. specialize (Ht k0 r0 Hk0). lia.
Qed.

Lemma typing_means_awaited_witness :
  exists k r,
    inflight
      (run [ Mount; Settle 0%nat (Reply (JObject [(lit "id", JString (lit "c1"))])) 5;
             Input (lit "hello"); PressSend 10; NewChat ] initial) !! k = Some r /\
    is_send r.
Proof.
  apply (typing_means_awaited
           [ Mount; Settle 0%nat (Reply (JObject [(lit "id", JString (lit "c1"))])) 5;
             Input (lit "hello"); PressSend 10; NewChat ]).
  reflexivity.
Defined.

(** X14.  In every execution every chat request carries a conversation id
    that is not empty and a message that is not empty and is trimmed, every
    analysis request an id and a message that are not empty, and every
    creation request the one fixed title. *)
Theorem requests_well_formed (events : list Event) (k : nat) (r : Request) :
  inflight (run events initial) !! k = Some r -> well_formed_request r.
Proof.
  revert k r.
  apply (run_reachable
           (fun s => forall k r, inflight s !! k = Some r -> well_formed_request r)).
  - intros k r H. simpl in H. rewrite lookup_empty in H. discriminate.
  - intros s e _ IH k r.
    destruct (step_effect s e) as
      [ e s' _ _ _ Hin _ _
      | e now r' m s' _ _ _ Hr' _ _ _ _ _ _ Hin _
      | k' r' o now s' _ _ _ _ _ Hin _
      | k' t o now s' _ _ _ Hin _
      | s' _ _ _ Hin _
      | s' _ _ _ _ Hin _ ]; rewrite Hin.
    + apply IH.
    + intros H. apply lookup_insert_Some in H as [[_ <-] | [_ H]]; [exact Hr' | eapply IH, H].
    + intros H. apply lookup_delete_Some in H as [_ H]. eapply IH, H.
    + intros H. apply lookup_delete_Some in H as [_ H]. eapply IH, H.
    + intros H. apply lookup_insert_Some in H as [[_ <-] | [_ H]]; [reflexivity | eapply IH, H].
    + intros H. apply lookup_insert_Some in H as [[_ <-] | [_ H]]; [reflexivity | eapply IH, H].
Qed.

Lemma requests_well_formed_witness :
  well_formed_request (PostChat (lit "c1") (lit "hello")).
Proof.
  apply (requests_well_formed
           [ Mount; Settle 0%nat (Reply (JObject [(lit "id", JString (lit "c1"))])) 5;
             Input (lit "  hello "); PressSend 10 ] 1).
  reflexivity.
Defined.

(** X15.  In every execution every message of the user in the transcript
    is a text that is not empty, and no message of the assistant names a
    file. *)
Theorem messages_well_formed (events : list Event) :
  Forall well_formed_message (messages (run events initial)).
Proof.
  apply (run_reachable (fun s => Forall well_formed_message (messages s))).
  - constructor.
  - intros s e _ IH.
    destruct (step_effect s e) as
      [ e s' Hm _ _ _ _ _
      | e now r' m s' _ _ _ _ _ Hwf _ Hm _ _ _ _
      | k' r' o now s' _ _ Hm _ _ _ _
      | k' t o now s' _ Hm _ _ _
      | s' Hm _ _ _ _
      | s' Hm _ _ _ _ _ ]; rewrite Hm; try exact IH.
    + apply Forall_app. split; [exact IH | constructor; [exact Hwf | constructor]].
    + apply Forall_app. split; [exact IH | constructor; [reflexivity | constructor]].
    + constructor.
Qed.

(** X16.  Between two resets the transcript only grows at its end: after
    events that hold no reset the old transcript is a prefix of the new one,
    and the new one is longer by at most the number of events. *)
Theorem transcript_grows (events : list Event) (s : Session) :
  Forall (fun e => e <> NewChat) events ->
  messages s `prefix_of` messages (run events s) /\
  (length (messages (run events s)) <= length (messages s) + length events)%nat.
Proof.
  intros Hevents. revert s.
  induction Hevents as [|e events He _ IH]; intros s.
  - split; [reflexivity | simpl; lia].
  - rewrite run_cons. destruct (IH (step s e)) as [Hpre Hlen].
    assert (Hstep : messages s `prefix_of` messages (step s e) /\
                    (length (messages (step s e)) <= S (length (messages s)))%nat).
    { destruct (step_effect s e) as
        [ e s' Hm _ _ _ _ _
        | e now r' m s' _ _ _ _ _ _ _ Hm _ _ _ _
        | k' r' o now s' _ _ Hm _ _ _ _
        | k' t o now s' _ Hm _ _ _
        | s' Hm _ _ _ _
        | s' Hm _ _ _ _ _ ]; try (rewrite Hm; split; [reflexivity | lia]);
        try (rewrite Hm, length_app; split; [apply prefix_app_r; reflexivity | simpl; lia]).
      contradiction He. reflexivity. }
    destruct Hstep as [Hpre1 Hlen1]. split.
    + etransitivity; eassumption.
    + simpl. lia.
Qed.

Lemma transcript_grows_witness :
  [ {| id := lit "10"; role := user; content := CText (lit "hello"); fileName := None |} ]
  `prefix_of`
  messages
    (run [ Settle 1%nat (Reply (JString (lit "hi there"))) 20; Input (lit "more");
           PressSend 30 ]
       (run [ Mount; Settle 0%nat (Reply (JObject [(lit "id", JString (lit "c1"))])) 5;
              Input (lit "hello"); PressSend 10 ] initial)).
Proof.
  destruct (transcript_grows
              [ Settle 1%nat (Reply (JString (lit "hi there"))) 20; Input (lit "more");
                PressSend 30 ]
              (run [ Mount; Settle 0%nat (Reply (JObject [(lit "id", JString (lit "c1"))])) 5;
                     Input (lit "hello"); PressSend 10 ] initial)) as [H _].
  - repeat constructor; discriminate.
  - exact H.
Defined.

(** X17.  In every execution the messages of the user are at most as many
    as the messages of the assistant and the sends that are awaited taken
    together, and exactly as many when there was no reset: once nothing is
    awaited, every message has its answer. *)
Theorem answers_account_for_messages (events : list Event) :
  let s := run events initial in
  (length (of_role user (messages s))
   <= length (of_role assistant (messages s)) + size (awaited_sends s))%nat /\
  (Forall (fun e => e <> NewChat) events ->
   length (of_role user (messages s))
   = (length (of_role assistant (messages s)) + size (awaited_sends s))%nat).
Proof.
  set (users := fun s : Session => length (of_role user (messages s))).
  set (answers := fun s : Session =>
                    (length (of_role assistant (messages s)) + size (awaited_sends s))%nat).
  assert (Hstep : forall s e, tickets_issued s ->
             ((users s <= answers s)%nat -> (users (step s e) <= answers (step s e))%nat) /\
             (e <> NewChat -> users s = answers s -> users (step s e) = answers (step s e))).
  { intros s e Ht. unfold users, answers, awaited_sends.
    destruct (step_effect s e) as
      [ e s' Hm _ _ Hin _ _
      | e now r' m s' _ _ Hr' _ Hrole _ _ Hm _ _ Hin _
      | k' r' o now s' Hk Hr' Hm _ _ Hin _
      | k' t o now s' Hk Hm _ Hin _
      | s' Hm _ _ Hin _
      | s' Hm _ _ _ Hin _ ]; rewrite Hm, Hin.
    - tauto.
    - rewrite !of_role_snoc, Hrole, !length_app.
      rewrite (awaited_sends_insert_send s r' Ht Hr'). unfold awaited_sends. simpl.
      split; [|intros _]; lia.
    - rewrite !of_role_snoc, !length_app. simpl.
      pose proof (awaited_sends_delete_send s k' r' Hk Hr') as Hs.
      unfold awaited_sends in Hs. split; [|intros _]; lia.
    - rewrite (awaited_sends_delete_other s k' t Hk). unfold awaited_sends. tauto.
    - rewrite (awaited_sends_insert_other s title Ht). unfold awaited_sends. tauto.
    - rewrite (awaited_sends_insert_other s title Ht). simpl.
      split; [lia | intros H; contradiction H; reflexivity]. }
  assert (Hall : forall evs,
             tickets_issued (run evs initial) /\
             (users (run evs initial) <= answers (run evs initial))%nat /\
             (Forall (fun e => e <> NewChat) evs ->
              users (run evs initial) = answers (run evs initial))).
  { induction evs as [|e evs IH] using rev_ind.
    - split; [apply (tickets_issued_reachable [])|].
      split; [unfold users, answers; simpl; lia | intros _; reflexivity].
    - rewrite run_snoc. destruct IH as (Ht & Hle & Heq).
      destruct (Hstep (run evs initial) e Ht) as [H1 H2].
      split; [apply tickets_issued_step, Ht|]. split; [exact (H1 Hle)|].
      intros Hno. apply Forall_app in Hno as [Hno He]. inversion He; subst.
      apply H2; [assumption | apply Heq, Hno]. }
  intros s. destruct (Hall events) as (_ & H1 & H2). split; [exact H1 | exact H2].
Qed.

Lemma answers_account_for_messages_witness :
  length
    (of_role user
       (messages
          (run [ Mount; Settle 0%nat (Reply (JObject [(lit "id", JString (lit "c1"))])) 5;
                 Input (lit "hello"); PressSend 10;
                 Settle 1%nat (Reply (JString (lit "hi there"))) 20 ] initial)))
  = 1%nat.
Proof.
  destruct (answers_account_for_messages
              [ Mount; Settle 0%nat (Reply (JObject [(lit "id", JString (lit "c1"))])) 5;
                Input (lit "hello"); PressSend 10;
                Settle 1%nat (Reply (JString (lit "hi there"))) 20 ]) as [_ H].
  rewrite H.
  - reflexivity.
  - repeat constructor; discriminate.
Defined.

(** ** Message ids *)

Section MessageIds.

Implicit Types (s : Session) (e : Event) (m : Message).

(** A send that is taken appends one message of the user, whose id is the
    clock reading. *)
Lemma sendMessage_accepted s now :
  canSend s = true ->
  exists m, role m = user /\ id m = decimal now /\
            messages (sendMessage now s) = messages s ++ [m].
Proof.
  unfold canSend. intros H. apply andb_true_iff in H as [Hdraft Hconv].
  destruct (hasConversation_true s Hconv) as (cid & Hcid & Ht).
  destruct (pendingFile s) as [f|] eqn:Hf.
  - rewrite (sendMessage_file s now cid f) by assumption.
    rewrite (runAnalysis_ready _ f _ now cid) by assumption.
    eexists. split; [|split]. 3: (simpl; reflexivity). all: reflexivity.
  - rewrite bool_decide_eq_false_2 in Hdraft by (intros [? ?]; discriminate).
    rewrite orb_false_r in Hdraft.
    rewrite (sendMessage_text s now cid)
      by first [assumption | apply truthy_nonempty; assumption].
    eexists. split; [|split]. 3: (simpl; reflexivity). all: reflexivity.
Qed.

Lemma ids_below_weaken from from' s : from <= from' -> ids_below from s -> ids_below from' s.
Proof.
  intros Hle [Hall Hnd]. split; [|exact Hnd].
  eapply Forall_impl; [exact Hall|]. intros m (n & Hn & Hlt). exists n. split; [exact Hn | lia].
Qed.

Lemma ids_below_snoc from s m n bound :
  ids_below from s -> from <= n -> n < bound -> id m = decimal n ->
  Forall (fun m => exists n, id m = decimal n /\ n < bound) (messages s ++ [m]) /\
  NoDup (map id (messages s ++ [m])).
Proof.
  intros [Hall Hnd] Hfrom Hbound Hid. split.
  - apply Forall_app. split.
    + eapply Forall_impl; [exact Hall|]. intros m0 (n0 & Hn0 & Hlt).
      exists n0. split; [exact Hn0 | lia].
    + constructor; [|constructor]. exists n. split; assumption.
  - rewrite map_app. apply NoDup_app. split; [exact Hnd|]. split.
    + intros x Hx Hin. simpl in Hin. apply list_elem_of_singleton in Hin. subst x.
      apply list_elem_of_In, in_map_iff in Hx as (m0 & Hm0 & Hin0).
      apply list_elem_of_In in Hin0. rewrite Forall_forall in Hall.
      destruct (Hall m0 Hin0) as (n0 & Hn0 & Hlt).
      rewrite Hid, Hn0 in Hm0. apply decimal_inj in Hm0. lia.
    + simpl. apply NoDup_singleton.
Qed.

Lemma ids_below_step from s e :
  ids_below from s ->
  match stamp e with Some now => from <= now | None => True end ->
  ids_below (match stamp e with Some now => now + 2 | None => from end) (step s e).
Proof.
  intros Hs Hstamp.
  assert (Hweak : from <= match stamp e with Some now => now + 2 | None => from end).
  { destruct (stamp e); lia. }
  destruct (step_effect s e) as
    [ e s' Hm _ _ _ _ _
    | e now r' m s' He _ _ _ _ _ Hid Hm _ _ _ _
    | k' r' o now s' _ _ Hm _ _ _ _
    | k' t o now s' _ Hm _ _ _
    | s' Hm _ _ _ _
    | s' Hm _ _ _ _ _ ]; unfold ids_below; rewrite Hm.
  - apply (ids_below_weaken from _ s Hweak Hs).
  - rewrite He in *. apply (ids_below_snoc from s m now); [assumption | lia | lia | exact Hid].
  - simpl in *. apply (ids_below_snoc from s _ (now + 1)); [assumption | lia | lia | reflexivity].
  - apply (ids_below_weaken from _ s Hweak Hs).
  - apply (ids_below_weaken from _ s Hweak Hs).
  - split; constructor.
Qed.

Lemma ids_below_run events : forall from s,
  ids_below from s -> spaced from events ->
  ids_below (clock_after from events) (run events s).
Proof.
  induction events as [|e events IH]; intros from s Hs Hsp; [exact Hs|].
  rewrite run_cons. simpl in *.
  pose proof (ids_below_step from s e Hs) as Hstep.
  destruct (stamp e) as [now|].
  - destruct Hsp as [Hle Hsp]. apply IH; [apply Hstep, Hle | exact Hsp].
  - apply IH; [apply Hstep; exact I | exact Hsp].
Qed.

End MessageIds.

(** X18.  The ids of two messages can be equal: the answer that settles at
    one clock reading and the message that is sent at the next reading get
    the same id. *)
Theorem message_ids_collide
    (s : Session) (k : nat) (r : Request) (o : Outcome) (t : N) :
  inflight s !! k = Some r -> is_send r -> canSend s = true ->
  exists m1 m2,
    messages (run [Settle k o t; PressSend (t + 1)] s) = messages s ++ [m1; m2] /\
    role m1 = assistant /\ role m2 = user /\ id m1 = id m2.
Proof.
  intros Hk Hr Hcan. unfold run. simpl.
  rewrite (resume_send s k r o t Hk Hr).
  destruct (sendMessage_accepted
              (setIsTyping false
                 (setMessages (fun prev => prev ++ [assistantMsg o t]) (settled k s)))
              (t + 1) Hcan) as (m & Hrole & Hid & Hm).
  exists (assistantMsg o t), m. rewrite Hm. simpl. rewrite <- app_assoc.
  repeat split; [exact Hrole | rewrite Hid; reflexivity].
Qed.

Lemma message_ids_collide_witness :
  exists m1 m2,
    messages
      (run [ Settle 1%nat (Reply (JString (lit "answer"))) 20; PressSend (20 + 1) ]
         (run [ Mount; Settle 0%nat (Reply (JObject [(lit "id", JString (lit "c1"))])) 5;
                Input (lit "one"); PressSend 10; Input (lit "two") ] initial))
    = messages
        (run [ Mount; Settle 0%nat (Reply (JObject [(lit "id", JString (lit "c1"))])) 5;
               Input (lit "one"); PressSend 10; Input (lit "two") ] initial)
        ++ [m1; m2] /\
    role m1 = assistant /\ role m2 = user /\ id m1 = id m2.
Proof.
  apply (message_ids_collide
           (run [ Mount; Settle 0%nat (Reply (JObject [(lit "id", JString (lit "c1"))])) 5;
                  Input (lit "one"); PressSend 10; Input (lit "two") ] initial)
           1 (PostChat (lit "c1") (lit "one")) (Reply (JString (lit "answer"))) 20).
  - reflexivity.
  - exact I.
  - reflexivity.
Defined.

(** X19.  When the clock readings of the events are two milliseconds apart
    or more, the ids of the transcript are all different. *)
Theorem message_ids_distinct (events : list Event) :
  spaced 0 events -> NoDup (map id (messages (run events initial))).
Proof.
  intros Hsp.
  destruct (ids_below_run events 0 initial) as [_ H]; [|exact Hsp | exact H].
  split; constructor.
Qed.

Lemma message_ids_distinct_witness :
  NoDup
    (map id
       (messages
          (run [ Mount; Settle 0%nat (Reply (JObject [(lit "id", JString (lit "c1"))])) 5;
                 Input (lit "one"); PressSend 10;
                 Settle 1%nat (Reply (JString (lit "answer"))) 20; Input (lit "two");
                 PressSend 22 ] initial))).
Proof.
  apply message_ids_distinct. simpl. repeat split; lia.
Defined.

(** ** The prompt of an analysis *)

(** X20.  In a report analysis the text shown in the transcript and the
    text sent with the file are the prompt when there is one, and they
    differ exactly when the prompt is empty. *)
Theorem analysis_prompt_shown_as_sent
    (s : Session) (f : File) (prompt : jsstring) (now : N) (cid : jsstring) :
  conversationId s = Some cid -> truthy cid = true ->
  let s' := runAnalysis f prompt now s in
  exists shown sent,
    messages s'
    = messages s ++ [ {| id := decimal now; role := user; content := CText shown;
                         fileName := Some (name f) |} ] /\
    inflight s' !! issued s = Some (PostAnalyzeReport cid f sent) /\
    (prompt <> [] -> shown = prompt /\ sent = prompt) /\
    (shown = sent <-> prompt <> []).
Proof.
  intros Hcid Ht s'. subst s'. rewrite (runAnalysis_ready s f prompt now cid Hcid Ht).
  exists (or_else prompt shownDefaultPrompt), (or_else prompt sentDefaultPrompt).
  split; [reflexivity|]. split; [simpl; apply lookup_insert_eq|].
  unfold or_else. destruct prompt as [|c p]; simpl.
  - split; [intros H; contradiction H; reflexivity|].
    split; [intros H; vm_compute in H; discriminate H | intros H; contradiction H; reflexivity].
  - split; [intros _; split; reflexivity|]. split; [discriminate | reflexivity].
Qed.

Lemma analysis_prompt_shown_as_sent_witness :
  exists shown sent,
    messages
      (runAnalysis {| name := lit "scan.png"; bytes := 1 |} (lit "check iron") 10
         (run [Mount; Settle 0%nat (Reply (JObject [(lit "id", JString (lit "c1"))])) 5]
            initial))
    = [ {| id := lit "10"; role := user; content := CText shown;
           fileName := Some (lit "scan.png") |} ] /\
    shown = sent.
Proof.
  destruct (analysis_prompt_shown_as_sent
              (run [Mount; Settle 0%nat (Reply (JObject [(lit "id", JString (lit "c1"))])) 5]
                 initial)
              {| name := lit "scan.png"; bytes := 1 |} (lit "check iron") 10 (lit "c1"))
    as (shown & sent & Hm & _ & _ & Hiff).
  - reflexivity.
  - reflexivity.
  - exists shown, sent. split; [exact Hm|]. apply Hiff. discriminate.
Defined.

(** ** Witnesses *)

Lemma toList_dyn_throws_witness :
  toList_dyn
    (get (lit "abnormal_findings")
       (JObject [ (lit "summary", JString (lit "ok"));
                  (lit "abnormal_findings", JNumber (Finite (lit "3"))) ])) = None.
Proof.
  apply toList_dyn_throws. right. left.
  exists (Finite (lit "3")). split; [reflexivity | discriminate].
Defined.

Lemma handleAnalyze_before_id_witness :
  handleAnalyze 10
    {| file := Some {| name := lit "scan.png"; bytes := 1 |}; prompt := lit "check iron" |}
    (step initial Mount)
  = ({| file := None; prompt := [] |}, step initial Mount).
Proof.
  apply (handleAnalyze_before_id _ _ {| name := lit "scan.png"; bytes := 1 |}); reflexivity.
Defined.

Lemma handleAnalyze_prompt_witness :
  messages
    (snd (handleAnalyze 10
            {| file := Some {| name := lit "scan.png"; bytes := 1 |}; prompt := [] |}
            (run [Mount; Settle 0%nat (Reply (JObject [(lit "id", JString (lit "c1"))])) 5]
               initial)))
  = [ {| id := lit "10"; role := user; content := CText sentDefaultPrompt;
         fileName := Some (lit "scan.png") |} ].
Proof.
  destruct (handleAnalyze_prompt
              {| file := Some {| name := lit "scan.png"; bytes := 1 |}; prompt := [] |}
              (run [Mount; Settle 0%nat (Reply (JObject [(lit "id", JString (lit "c1"))])) 5]
                 initial)
              {| name := lit "scan.png"; bytes := 1 |} 10 (lit "c1")) as (_ & _ & H).
  - reflexivity.
  - reflexivity.
  - reflexivity.
  - exact H.
Defined.
